(** * kitkat: the MCP tool server and the chat orchestrator

    A shallow embedding of

    - [src/mcp-server.cts]: the catalog [OFFERS] and the three registered
      tool handlers [getOffers], [createPurchaseLink], [generateOfferWidget];
    - the chat page component: [parseAgentResponse], [callAgent],
      [ChatMessage] and [handleSendMessage] of [App], with the controls of
      the page;
    - [src/pages/api/chat.js] and [src/pages/index.js]: the completion
      route and the page that posts to it.

    The program is JavaScript, so the first module fixes the part of the
    language runtime the two files rely on: values, truthiness, property
    reads (with [Object.prototype] behind every plain object), string
    coercion, [JSON.stringify] and [JSON.parse]. *)

From Stdlib Require Import String Ascii List ZArith Bool Lia DecimalString.
Import ListNotations.
Open Scope string_scope.
Set Warnings "-register-all".

(** ** Strings *)

Module Str.

(** The double quote, the line feed and the backslash as one-character
    strings. *)
Definition dq : string := String "034"%char EmptyString.
Definition nl : string := String "010"%char EmptyString.
Definition bs : string := String "092"%char EmptyString.

Definition is_upper (c : ascii) : bool :=
  ((65 <=? nat_of_ascii c) && (nat_of_ascii c <=? 90))%nat.

Definition lower_char (c : ascii) : ascii :=
  if is_upper c then ascii_of_nat (nat_of_ascii c + 32) else c.

(** [String.prototype.toLowerCase], on the ASCII letters; a byte above 7F
    (part of a multi-byte character) is left as it is, so this is the
    built-in on ASCII text only. [Hosted] below takes the built-in as it
    is on the host. *)
Fixpoint toLowerCase (s : string) : string :=
  match s with
  | EmptyString => EmptyString
  | String c r => String (lower_char c) (toLowerCase r)
  end.

Fixpoint has_upper (s : string) : bool :=
  match s with
  | EmptyString => false
  | String c r => is_upper c || has_upper r
  end.

(** White space and line terminators of [String.prototype.trim]: the ASCII
    ones, and the others in their UTF-8 form. *)
Definition ws1 (c : ascii) : bool :=
  let n := nat_of_ascii c in
  ((n =? 9) || (n =? 10) || (n =? 11) || (n =? 12) || (n =? 13) || (n =? 32))%nat.

Definition ws2 (c1 c2 : ascii) : bool :=
  ((nat_of_ascii c1 =? 194) && (nat_of_ascii c2 =? 160))%nat.

Definition ws3 (c1 c2 c3 : ascii) : bool :=
  let a := nat_of_ascii c1 in
  let b := nat_of_ascii c2 in
  let c := nat_of_ascii c3 in
  (((a =? 239) && (b =? 187) && (c =? 191))
   || ((a =? 225) && (b =? 154) && (c =? 128))
   || ((a =? 226) && (b =? 128)
       && (((128 <=? c) && (c <=? 138)) || (c =? 168) || (c =? 169) || (c =? 175)))
   || ((a =? 226) && (b =? 129) && (c =? 159))
   || ((a =? 227) && (b =? 128) && (c =? 128)))%nat.

(** [s.trim() === ''] *)
Fixpoint is_blank (s : string) : bool :=
  match s with
  | EmptyString => true
  | String c1 r1 =>
      if ws1 c1 then is_blank r1
      else match r1 with
           | String c2 r2 =>
               if ws2 c1 c2 then is_blank r2
               else match r2 with
                    | String c3 r3 => if ws3 c1 c2 c3 then is_blank r3 else false
                    | EmptyString => false
                    end
           | EmptyString => false
           end
  end.

(** [s.includes(sub)] as a proposition. *)
Definition includes (s sub : string) : Prop :=
  exists pre post, s = pre ++ sub ++ post.

Fixpoint repeat_char (c : ascii) (n : nat) : string :=
  match n with
  | O => EmptyString
  | S k => String c (repeat_char c k)
  end.

Fixpoint rev_onto (s acc : string) : string :=
  match s with
  | EmptyString => acc
  | String c r => rev_onto r (String c acc)
  end.

Definition rev (s : string) : string := rev_onto s EmptyString.

Fixpoint drop_zeros (s : string) : string :=
  match s with
  | String "0"%char r => drop_zeros r
  | _ => s
  end.

Fixpoint assoc {A : Type} (k : string) (l : list (string * A)) : option A :=
  match l with
  | [] => None
  | (k', a) :: r => if k =? k' then Some a else assoc k r
  end.

End Str.

(** ** JavaScript values *)

Module JS.

Import Str.

(** A number is kept as the exact decimal [mant * 10 ^ expo]: the text of a
    JSON number is decimal, and no function below does arithmetic on one
    beyond printing it. Binary rounding and the exponent notation of very
    large or very small magnitudes are outside this representation. *)
Record number : Type := Num { mant : Z; expo : Z }.

Inductive value : Type :=
| VUndefined
| VNull
| VBool (b : bool)
| VNum (n : number)
| VStr (s : string)
| VArr (elems : list value)
| VObj (props : list (string * value))
| VFun (name : string).

Definition of_nat (n : nat) : value := VNum (Num (Z.of_nat n) 0).

(** ToBoolean *)
Definition truthy (v : value) : bool :=
  match v with
  | VUndefined | VNull => false
  | VBool b => b
  | VNum n => negb (mant n =? 0)%Z
  | VStr s => negb (s =? "")
  | VArr _ | VObj _ | VFun _ => true
  end.

(** [a || b] *)
Definition or_else (a b : value) : value := if truthy a then a else b.

(** What every plain object inherits: the properties of
    [Object.prototype]. The accessor [__proto__] answers with the prototype
    itself, an object with no enumerable property of its own. *)
Definition object_prototype : list (string * value) :=
  [ ("constructor", VFun "Object");
    ("__defineGetter__", VFun "__defineGetter__");
    ("__defineSetter__", VFun "__defineSetter__");
    ("hasOwnProperty", VFun "hasOwnProperty");
    ("__lookupGetter__", VFun "__lookupGetter__");
    ("__lookupSetter__", VFun "__lookupSetter__");
    ("isPrototypeOf", VFun "isPrototypeOf");
    ("propertyIsEnumerable", VFun "propertyIsEnumerable");
    ("toString", VFun "toString");
    ("valueOf", VFun "valueOf");
    ("__proto__", VObj []);
    ("toLocaleString", VFun "toLocaleString") ].

(** A canonical array index: ["0"], or digits with no leading zero. *)
Fixpoint digits_value (s : string) (acc : nat) : option nat :=
  match s with
  | EmptyString => Some acc
  | String c r =>
      let n := nat_of_ascii c in
      if ((48 <=? n) && (n <=? 57))%nat
      then digits_value r (10 * acc + (n - 48))
      else None
  end.

Definition array_index (k : string) : option nat :=
  match k with
  | EmptyString => None
  | String "0"%char EmptyString => Some 0
  | String "0"%char _ => None
  | _ => digits_value k 0
  end.

Fixpoint char_at (s : string) (i : nat) : value :=
  match s, i with
  | EmptyString, _ => VUndefined
  | String c _, O => VStr (String c EmptyString)
  | String _ r, S j => char_at r j
  end.

(** [v[k]] and [v.k]: [None] is the TypeError of reading a property of
    [undefined] or [null]. An object answers with its own property, then
    with the inherited one. The names the two programs read on an array, a
    string, a number or a boolean are [length], an index, or a name that no
    built-in prototype defines. *)
Definition get (v : value) (k : string) : option value :=
  match v with
  | VUndefined | VNull => None
  | VObj props =>
      Some match assoc k props with
           | Some x => x
           | None => match assoc k object_prototype with
                     | Some x => x
                     | None => VUndefined
                     end
           end
  | VArr l =>
      Some (if k =? "length" then of_nat (List.length l)
            else match array_index k with
                 | Some i => nth i l VUndefined
                 | None => VUndefined
                 end)
  | VStr s =>
      Some (if k =? "length" then of_nat (String.length s)
            else match array_index k with
                 | Some i => char_at s i
                 | None => VUndefined
                 end)
  | VBool _ | VNum _ | VFun _ => Some VUndefined
  end.

(** [v?.k] *)
Definition get_opt (v : value) (k : string) : value :=
  match get v k with
  | Some x => x
  | None => VUndefined
  end.

(** Writing an own property keeps the position of a key that exists and
    appends a new one. *)
Fixpoint set_prop (props : list (string * value)) (k : string) (x : value)
  : list (string * value) :=
  match props with
  | [] => [(k, x)]
  | (k', y) :: r => if k =? k' then (k, x) :: r else (k', y) :: set_prop r k x
  end.

(** [v.k = x] in strict code: [None] is the TypeError of writing to a
    primitive, [undefined] or [null]. *)
Definition set (v : value) (k : string) (x : value) : option value :=
  match v with
  | VObj props => Some (VObj (set_prop props k x))
  | VArr l => Some (VArr l)
  | VFun n => Some (VFun n)
  | _ => None
  end.

(** *** Printing numbers *)

Definition digits (z : Z) : string := NilZero.string_of_uint (N.to_uint (Z.to_N z)).

(** The fraction digits [frac] without their trailing zeros, after a point
    when any is left. *)
Definition fraction (frac : string) : string :=
  match rev (drop_zeros (rev frac)) with
  | EmptyString => EmptyString
  | f => "." ++ f
  end.

(** Number::toString, in positional notation. *)
Definition number_to_string (n : number) : string :=
  if (mant n =? 0)%Z then "0"
  else
    let sign := if (mant n <? 0)%Z then "-" else "" in
    let ds := digits (Z.abs (mant n)) in
    if (0 <=? expo n)%Z
    then sign ++ ds ++ repeat_char "0" (Z.to_nat (expo n))
    else
      let k := Z.to_nat (- expo n) in
      let len := String.length ds in
      if (k <? len)%nat
      then sign ++ substring 0 (len - k) ds ++ fraction (substring (len - k) k ds)
      else sign ++ "0" ++ fraction (repeat_char "0" (k - len) ++ ds).

(** [x.toFixed(2)]: the sign, then the nearest count of hundredths of the
    magnitude (the larger one on a tie), printed with two decimals. The
    rounding is that of the decimal as written, which is the built-in's on
    a price written with at most two decimals and below 1e21; the built-in
    rounds the double behind the literal. [Hosted] below takes the
    built-in as it is on the host. *)
Definition hundredths (a e : Z) : Z :=
  if (-2 <=? e)%Z then a * 10 ^ (e + 2)
  else (2 * a + 10 ^ (- e - 2)) / (2 * 10 ^ (- e - 2)).

Definition toFixed2 (n : number) : string :=
  let sign := if (mant n <? 0)%Z then "-" else "" in
  let h := hundredths (Z.abs (mant n)) (expo n) in
  let cents := digits (h mod 100) in
  sign ++ digits (h / 100) ++ "."
       ++ (if (String.length cents <? 2)%nat then "0" else "") ++ cents.

(** *** ToString *)

(** ToString of a value met by [+=] on a string. An array joins its
    elements with commas, [null] and [undefined] elements as the empty
    string. A plain object prints as [[object Object]] through the
    inherited method; an own property named [toString] that hides it is
    data, not a method, and the conversion is a TypeError ([None]). *)
Fixpoint to_string (v : value) : option string :=
  match v with
  | VUndefined => Some "undefined"
  | VNull => Some "null"
  | VBool b => Some (if b then "true" else "false")
  | VNum n => Some (number_to_string n)
  | VStr s => Some s
  | VFun name => Some ("function " ++ name ++ "() { [native code] }")
  | VObj props =>
      match assoc "toString" props with
      | Some _ => None
      | None => Some "[object Object]"
      end
  | VArr l =>
      (fix join (first : bool) (l : list value) : option string :=
         match l with
         | [] => Some ""
         | x :: r =>
             let sx := match x with
                       | VUndefined | VNull => Some ""
                       | _ => to_string x
                       end in
             match sx, join false r with
             | Some a, Some b => Some ((if first then "" else ",") ++ a ++ b)
             | _, _ => None
             end
         end) true l
  end.

(** *** JSON.stringify *)

Definition hex_digit (n : nat) : ascii :=
  if (n <? 10)%nat then ascii_of_nat (48 + n) else ascii_of_nat (87 + n).

(** One character inside a JSON string: the quote, the backslash and the
    control characters are escaped. *)
Definition escape_char (c : ascii) : string :=
  let n := nat_of_ascii c in
  if (n =? 34)%nat then bs ++ dq
  else if (n =? 92)%nat then bs ++ bs
  else if (n =? 8)%nat then bs ++ "b"
  else if (n =? 9)%nat then bs ++ "t"
  else if (n =? 10)%nat then bs ++ "n"
  else if (n =? 12)%nat then bs ++ "f"
  else if (n =? 13)%nat then bs ++ "r"
  else if (n <? 32)%nat
       then bs ++ "u00" ++ String (hex_digit (n / 16)) (String (hex_digit (n mod 16)) "")
  else String c "".

Fixpoint escape (s : string) : string :=
  match s with
  | EmptyString => EmptyString
  | String c r => escape_char c ++ escape r
  end.

Definition quote (s : string) : string := dq ++ escape s ++ dq.

(** [JSON.stringify v]: [None] is the [undefined] it answers for
    [undefined] and for a function. Such a value is dropped with its key
    from an object and printed as [null] in an array. *)
Fixpoint stringify (v : value) : option string :=
  match v with
  | VUndefined | VFun _ => None
  | VNull => Some "null"
  | VBool b => Some (if b then "true" else "false")
  | VNum n => Some (number_to_string n)
  | VStr s => Some (quote s)
  | VArr l =>
      Some ("[" ++
        (fix items (first : bool) (l : list value) : string :=
           match l with
           | [] => ""
           | x :: r =>
               (if first then "" else ",")
               ++ match stringify x with Some s => s | None => "null" end
               ++ items false r
           end) true l
        ++ "]")
  | VObj props =>
      Some ("{" ++
        (fix members (first : bool) (l : list (string * value)) : string :=
           match l with
           | [] => ""
           | (k, x) :: r =>
               match stringify x with
               | Some s => (if first then "" else ",") ++ quote k ++ ":" ++ s
                           ++ members false r
               | None => members first r
               end
           end) true props
        ++ "}")
  end.

(** [JSON.stringify] of an object literal is always a string. *)
Definition stringify_object (props : list (string * value)) : string :=
  match stringify (VObj props) with
  | Some s => s
  | None => ""
  end.

(** [`${JSON.stringify v}`] *)
Definition stringify_in_template (v : value) : string :=
  match stringify v with
  | Some s => s
  | None => "undefined"
  end.

(** *** JSON.parse

    The text is cut into tokens by a machine that reads one character at a
    time, and the tokens drive a stack of the arrays and objects that are
    still open. Both are folds over their input, so [parse] is total:
    [None] is the SyntaxError. *)

Inductive token : Type :=
| TLBrace | TRBrace | TLBracket | TRBracket | TColon | TComma
| TScalar (v : value).

Fixpoint span_digits (s : string) : string * string :=
  match s with
  | String c r =>
      if ((48 <=? nat_of_ascii c) && (nat_of_ascii c <=? 57))%nat
      then let (d, rest) := span_digits r in (String c d, rest)
      else (EmptyString, s)
  | EmptyString => (EmptyString, EmptyString)
  end.

Fixpoint digits_Z (s : string) (acc : Z) : Z :=
  match s with
  | EmptyString => acc
  | String c r => digits_Z r (10 * acc + Z.of_nat (nat_of_ascii c - 48))
  end.

(** The exponent part: nothing, or [e] or [E], a sign at most, digits. *)
Definition parse_exponent (s : string) : option Z :=
  match s with
  | EmptyString => Some 0%Z
  | String c r =>
      if ((nat_of_ascii c =? 101) || (nat_of_ascii c =? 69))%nat then
        let (neg, r1) := match r with
                         | String "-"%char r' => (true, r')
                         | String "+"%char r' => (false, r')
                         | _ => (false, r)
                         end in
        match span_digits r1 with
        | (EmptyString, _) => None
        | (ds, EmptyString) => Some (if neg then - digits_Z ds 0 else digits_Z ds 0)%Z
        | (_, String _ _) => None
        end
      else None
  end.

(** A JSON number: a minus at most, an integer part with no leading zero,
    a fraction at most, an exponent at most. *)
Definition parse_number (s : string) : option number :=
  let (neg, s1) := match s with
                   | String "-"%char r => (true, r)
                   | _ => (false, s)
                   end in
  let (int, s2) := span_digits s1 in
  let int_ok := match int with
                | EmptyString => false
                | String "0"%char (String _ _) => false
                | _ => true
                end in
  if negb int_ok then None
  else
    let after_fraction :=
      match s2 with
      | String "."%char r =>
          match span_digits r with
          | (EmptyString, _) => None
          | (f, rest) => Some (f, rest)
          end
      | _ => Some (EmptyString, s2)
      end in
    match after_fraction with
    | None => None
    | Some (frac, s3) =>
        match parse_exponent s3 with
        | None => None
        | Some e =>
            let m := digits_Z (int ++ frac) 0 in
            Some (Num (if neg then - m else m) (e - Z.of_nat (String.length frac)))
        end
    end.

Definition is_json_ws (c : ascii) : bool :=
  let n := nat_of_ascii c in
  ((n =? 32) || (n =? 9) || (n =? 10) || (n =? 13))%nat.

(** The characters of [true], [false], [null] and of a number. *)
Definition is_word_char (c : ascii) : bool :=
  let n := nat_of_ascii c in
  (((48 <=? n) && (n <=? 57)) || ((97 <=? n) && (n <=? 122))
   || ((65 <=? n) && (n <=? 90)) || (n =? 43) || (n =? 45) || (n =? 46))%nat.

Definition hex_value (c : ascii) : option nat :=
  let n := nat_of_ascii c in
  if ((48 <=? n) && (n <=? 57))%nat then Some (n - 48)
  else if ((97 <=? n) && (n <=? 102))%nat then Some (n - 87)
  else if ((65 <=? n) && (n <=? 70))%nat then Some (n - 55)
  else None.

(** The code unit of a [\u] escape, pushed on the reversed text [acc] in
    its UTF-8 form. *)
Definition push_code_unit (n : nat) (acc : string) : string :=
  if (n <? 128)%nat then String (ascii_of_nat n) acc
  else if (n <? 2048)%nat
  then String (ascii_of_nat (128 + n mod 64)) (String (ascii_of_nat (192 + n / 64)) acc)
  else String (ascii_of_nat (128 + n mod 64))
         (String (ascii_of_nat (128 + (n / 64) mod 64))
            (String (ascii_of_nat (224 + n / 4096)) acc)).

(** What the lexer is in the middle of; text is collected reversed. *)
Inductive lexmode : Type :=
| LIdle
| LWord (acc : string)
| LString (acc : string)
| LEscape (acc : string)
| LUnicode (acc : string) (seen code : nat).

Definition emit_word (acc : string) : option token :=
  let w := rev acc in
  if w =? "true" then Some (TScalar (VBool true))
  else if w =? "false" then Some (TScalar (VBool false))
  else if w =? "null" then Some (TScalar VNull)
  else option_map (fun n => TScalar (VNum n)) (parse_number w).

Definition lex_idle (c : ascii) (out : list token) : option (lexmode * list token) :=
  let n := nat_of_ascii c in
  if is_json_ws c then Some (LIdle, out)
  else if (n =? 123)%nat then Some (LIdle, TLBrace :: out)
  else if (n =? 125)%nat then Some (LIdle, TRBrace :: out)
  else if (n =? 91)%nat then Some (LIdle, TLBracket :: out)
  else if (n =? 93)%nat then Some (LIdle, TRBracket :: out)
  else if (n =? 58)%nat then Some (LIdle, TColon :: out)
  else if (n =? 44)%nat then Some (LIdle, TComma :: out)
  else if (n =? 34)%nat then Some (LString EmptyString, out)
  else if is_word_char c then Some (LWord (String c EmptyString), out)
  else None.

Definition lex_step (mode : lexmode) (out : list token) (c : ascii)
  : option (lexmode * list token) :=
  let n := nat_of_ascii c in
  match mode with
  | LIdle => lex_idle c out
  | LWord acc =>
      if is_word_char c then Some (LWord (String c acc), out)
      else match emit_word acc with
           | Some t => lex_idle c (t :: out)
           | None => None
           end
  | LString acc =>
      if (n =? 34)%nat then Some (LIdle, TScalar (VStr (rev acc)) :: out)
      else if (n =? 92)%nat then Some (LEscape acc, out)
      else if (n <? 32)%nat then None
      else Some (LString (String c acc), out)
  | LEscape acc =>
      if ((n =? 34) || (n =? 92) || (n =? 47))%nat then Some (LString (String c acc), out)
      else if (n =? 98)%nat then Some (LString (String "008"%char acc), out)
      else if (n =? 102)%nat then Some (LString (String "012"%char acc), out)
      else if (n =? 110)%nat then Some (LString (String "010"%char acc), out)
      else if (n =? 114)%nat then Some (LString (String "013"%char acc), out)
      else if (n =? 116)%nat then Some (LString (String "009"%char acc), out)
      else if (n =? 117)%nat then Some (LUnicode acc 0 0, out)
      else None
  | LUnicode acc seen code =>
      match hex_value c with
      | None => None
      | Some d =>
          if (seen =? 3)%nat then Some (LString (push_code_unit (16 * code + d) acc), out)
          else Some (LUnicode acc (S seen) (16 * code + d), out)
      end
  end.

Fixpoint lex (s : string) (mode : lexmode) (out : list token) : option (list token) :=
  match s with
  | String c r =>
      match lex_step mode out c with
      | Some (mode', out') => lex r mode' out'
      | None => None
      end
  | EmptyString =>
      match mode with
      | LIdle => Some (List.rev out)
      | LWord acc => option_map (fun t => List.rev (t :: out)) (emit_word acc)
      | LString _ | LEscape _ | LUnicode _ _ _ => None
      end
  end.

(** An array or an object that is still open. *)
Inductive frame : Type :=
| FArr (done : list value)
| FObj (props : list (string * value)) (key : option string).

Inductive expect : Type :=
| EValue | EValueOrClose | ECommaOrClose | EKey | EKeyOrClose | EColon | EDone.

Record parser : Type := Parser {
  stack : list frame;
  expecting : expect;
  result : option value
}.

(** A finished value goes to the innermost open container, or is the
    result. A key written twice keeps its place and takes the later value. *)
Definition deliver (v : value) (stk : list frame) : option parser :=
  match stk with
  | [] => Some (Parser [] EDone (Some v))
  | FArr done :: r => Some (Parser (FArr (v :: done) :: r) ECommaOrClose None)
  | FObj props (Some k) :: r => Some (Parser (FObj (set_prop props k v) None :: r) ECommaOrClose None)
  | FObj _ None :: _ => None
  end.

Definition wants_value (e : expect) : bool :=
  match e with EValue | EValueOrClose => true | _ => false end.

Definition parse_step (p : parser) (t : token) : option parser :=
  match t with
  | TScalar v =>
      if wants_value (expecting p) then deliver v (stack p)
      else match expecting p, v, stack p with
           | (EKey | EKeyOrClose), VStr k, FObj props None :: r =>
               Some (Parser (FObj props (Some k) :: r) EColon None)
           | _, _, _ => None
           end
  | TLBracket =>
      if wants_value (expecting p)
      then Some (Parser (FArr [] :: stack p) EValueOrClose None) else None
  | TLBrace =>
      if wants_value (expecting p)
      then Some (Parser (FObj [] None :: stack p) EKeyOrClose None) else None
  | TRBracket =>
      match expecting p, stack p with
      | (EValueOrClose | ECommaOrClose), FArr done :: r => deliver (VArr (List.rev done)) r
      | _, _ => None
      end
  | TRBrace =>
      match expecting p, stack p with
      | (EKeyOrClose | ECommaOrClose), FObj props None :: r => deliver (VObj props) r
      | _, _ => None
      end
  | TComma =>
      match expecting p, stack p with
      | ECommaOrClose, FArr done :: r => Some (Parser (FArr done :: r) EValue None)
      | ECommaOrClose, FObj props None :: r => Some (Parser (FObj props None :: r) EKey None)
      | _, _ => None
      end
  | TColon =>
      match expecting p with
      | EColon => Some (Parser (stack p) EValue None)
      | _ => None
      end
  end.

Fixpoint parse_tokens (ts : list token) (p : parser) : option value :=
  match ts with
  | t :: r =>
      match parse_step p t with
      | Some p' => parse_tokens r p'
      | None => None
      end
  | [] =>
      match expecting p with
      | EDone => result p
      | _ => None
      end
  end.

(** [JSON.parse text] *)
Definition parse (text : string) : option value :=
  match lex text LIdle [] with
  | Some ts => parse_tokens ts (Parser [] EValue None)
  | None => None
  end.

End JS.

(** ** The tool server, [src/mcp-server.cts] *)

Module Server.

Import Str JS.

Record Offer : Type := {
  id : string;
  name : string;
  price : number;
  description : string
}.

Record OfferData : Type := {
  home : list Offer;
  business : list Offer
}.

Record GetOffersInput : Type := { category : option string }.

(** The interface declares [offer_id: string]; the handler tests it at run
    time, so the field is optional here. *)
Record CreateLinkInput : Type := { offer_id : option string }.

Record WidgetInput : Type := { offers : option (list Offer) }.

(** The content envelope the handlers return. *)
Record ContentItem : Type := { type : string; text : string }.
Record Envelope : Type := { content : list ContentItem }.

Definition OFFERS : OfferData :=
  {| home :=
       [ {| id := "home_basic"; name := "Home Basic Shield"; price := Num 4999 (-2);
            description := "Door/Window sensors, 24/7 monitoring." |};
         {| id := "home_pro"; name := "Home Pro+"; price := Num 9999 (-2);
            description := "Includes cameras, smart alerts, and fire monitoring." |} ];
     business :=
       [ {| id := "biz_starter"; name := "Business Starter"; price := Num 7999 (-2);
            description := "Basic access control and alarm monitoring." |};
         {| id := "biz_fortress"; name := "Business Fortress"; price := Num 19999 (-2);
            description := "Full video surveillance, remote access, advanced analytics." |} ] |}.

(** An offer, and a list of offers, as the objects they are at run time. *)
Definition offer_value (o : Offer) : value :=
  VObj [ ("id", VStr (id o)); ("name", VStr (name o));
         ("price", VNum (price o)); ("description", VStr (description o)) ].

Definition offers_value (l : list Offer) : value := VArr (map offer_value l).

(** [OFFERS] is an object literal: its own properties are [home] and
    [business], and behind them stands [Object.prototype]. *)
Definition OFFERS_object : value :=
  VObj [ ("home", offers_value (home OFFERS));
         ("business", offers_value (business OFFERS)) ].

(** [OFFERS[key]]; the cast to [keyof OfferData] is erased at run time. *)
Definition OFFERS_at (key : string) : value := get_opt OFFERS_object key.

(** *** The world a handler runs in

    The handlers write to the console and draw from [crypto.randomUUID].
    The source of UUIDs is a sequence fixed in advance, read at
    [drawn]. *)
Record World : Type := {
  console : list string;
  uuids : nat -> string;
  drawn : nat
}.

Definition M (A : Type) : Type := World -> A * World.

Definition ret {A : Type} (a : A) : M A := fun w => (a, w).

Definition bind {A B : Type} (m : M A) (k : A -> M B) : M B :=
  fun w => let (a, w') := m w in k a w'.

Notation "x <- m ;; k" := (bind m (fun x => k))
  (at level 61, m at next level, right associativity).
Notation "m ;; k" := (bind m (fun _ => k))
  (at level 61, right associativity).

Definition console_log (line : string) : M unit :=
  fun w => (tt, {| console := (console w ++ [line])%list;
                   uuids := uuids w; drawn := drawn w |}).

Definition randomUUID : M string :=
  fun w => (uuids w (drawn w),
            {| console := console w; uuids := uuids w; drawn := S (drawn w) |}).

Definition text_item (s : string) : ContentItem := {| type := "text"; text := s |}.

(** *** getOffers *)

Definition getOffers (input : GetOffersInput) : M Envelope :=
  let selectedCategory :=
    match category input with
    | Some c => if c =? "" then "home" else toLowerCase c
    | None => "home"
    end in
  let offers := or_else (OFFERS_at selectedCategory) (offers_value (home OFFERS)) in
  console_log ("MCP Tool Call: getOffers, Category: " ++ selectedCategory) ;;
  ret {| content := [ text_item (stringify_object [("offers", offers)]) ] |}.

(** *** createPurchaseLink *)

Definition missing_offer_id : string :=
  "Error: Missing offer ID. Please ask the user to specify an ID from the available offers.".

Definition checkout_url (offer_id uuid : string) : string :=
  "https://your-company.com/checkout/" ++ toLowerCase offer_id
  ++ "?source=agent-" ++ substring 0 8 uuid.

Definition createPurchaseLink (input : CreateLinkInput) : M Envelope :=
  match offer_id input with
  | None | Some EmptyString =>
      ret {| content := [ text_item missing_offer_id ] |}
  | Some offer_id =>
      uuid <- randomUUID ;;
      let checkoutUrl := checkout_url offer_id uuid in
      console_log ("MCP Tool Call: createPurchaseLink, Offer ID: " ++ offer_id) ;;
      ret {| content :=
               [ text_item (stringify_object [("purchase_url", VStr checkoutUrl)]) ] |}
  end.

(** *** generateOfferWidget

    The two template literals are escaped in the file for the
    here-document that wraps it; they are read here as the literals the
    written-out file holds. *)

Definition card (offer : Offer) : string :=
  nl
  ++ "            <div class=" ++ dq ++ "p-4 bg-white rounded-xl shadow-lg border border-indigo-100 mb-4 transition-all hover:shadow-xl hover:scale-[1.01] cursor-pointer" ++ dq ++ " " ++ nl
  ++ "                 data-offer-id=" ++ dq ++ id offer ++ dq ++ ">" ++ nl
  ++ "                <div class=" ++ dq ++ "flex items-start justify-between" ++ dq ++ ">" ++ nl
  ++ "                    <h3 class=" ++ dq ++ "text-xl font-bold text-indigo-700" ++ dq ++ ">" ++ name offer ++ "</h3>" ++ nl
  ++ "                    <p class=" ++ dq ++ "text-2xl font-extrabold text-gray-900" ++ dq ++ ">$" ++ toFixed2 (price offer) ++ "</p>" ++ nl
  ++ "                </div>" ++ nl
  ++ "                <p class=" ++ dq ++ "text-sm text-gray-500 mt-2" ++ dq ++ ">" ++ description offer ++ "</p>" ++ nl
  ++ "                <!-- This button would trigger a subsequent action or tool call -->" ++ nl
  ++ "                <button class=" ++ dq ++ "mt-4 w-full bg-indigo-600 text-white py-2 rounded-lg font-medium hover:bg-indigo-700 transition duration-150" ++ dq ++ nl
  ++ "                        onclick=" ++ dq ++ "agentCall('createPurchaseLink', {offer_id: '" ++ id offer ++ "'})" ++ dq ++ ">" ++ nl
  ++ "                    Select Plan" ++ nl
  ++ "                </button>" ++ nl
  ++ "            </div>" ++ nl
  ++ "        ".

(** [offers.map(offer => card).join('')] *)
Definition widgetHtml (offers : list Offer) : string :=
  String.concat "" (map card offers).

Definition widget_head : string :=
  nl
  ++ "            <div class=" ++ dq ++ "p-6 bg-gray-50 rounded-2xl shadow-2xl" ++ dq ++ ">" ++ nl
  ++ "                <h2 class=" ++ dq ++ "text-2xl font-extrabold text-indigo-800 border-b pb-3 mb-4" ++ dq ++ ">" ++ nl
  ++ "                    Recommended Security Packages 🛡️" ++ nl
  ++ "                </h2>" ++ nl
  ++ "                ".

Definition widget_tail : string :=
  nl
  ++ "                <p class=" ++ dq ++ "mt-4 text-xs text-gray-500 text-center" ++ dq ++ ">" ++ nl
  ++ "                    Click 'Select Plan' to generate a unique purchase link." ++ nl
  ++ "                </p>" ++ nl
  ++ "            </div>" ++ nl
  ++ "        ".

Definition finalWidget (offers : list Offer) : string :=
  widget_head ++ widgetHtml offers ++ widget_tail.

(** The payloads the handler serialises. *)
Definition widget_error : list (string * value) :=
  [ ("status", VStr "error");
    ("message", VStr "No offers available to generate widget.") ].

Definition widget_success (offers : list Offer) : list (string * value) :=
  [ ("status", VStr "success");
    ("widget_data",
     VObj [ ("html", VStr (finalWidget offers));
            ("metadata", VObj [ ("offers", VArr (map (fun o => VStr (id o)) offers)) ]) ]) ].

Definition generateOfferWidget (input : WidgetInput) : M Envelope :=
  match offers input with
  | None | Some [] =>
      ret {| content := [ text_item (stringify_object widget_error) ] |}
  | Some offers =>
      ret {| content := [ text_item (stringify_object (widget_success offers)) ] |}
  end.

(** For the statements below: the key [getOffers] looks up, and the
    envelope around a serialised object. *)
Definition selected (input : GetOffersInput) : string :=
  match category input with
  | Some c => if c =? "" then "home" else toLowerCase c
  | None => "home"
  end.

Definition envelope_of (props : list (string * value)) : Envelope :=
  {| content := [ text_item (stringify_object props) ] |}.

(** Two UUIDs that differ and share their first eight characters. *)
Definition close_uuids (n : nat) : string :=
  match n with
  | O => "1b4e28ba-2fa1-41d2-883f-0016d3cca427"
  | S _ => "1b4e28ba-9c5e-4f0a-a3d1-7c2e5b8f6a90"
  end.

Definition quiet_world (source : nat -> string) : World :=
  {| console := []; uuids := source; drawn := 0 |}.

End Server.

(** ** The chat page: [parseAgentResponse], [callAgent], [ChatMessage], [App] *)

Module Client.

Import Str JS.

(** A step that can throw: [None] is the exception. *)
Notation "x <- m ;; k" := (match m with Some x => k | None => None end)
  (at level 61, m at next level, right associativity).

Record Parsed : Type := {
  toolCalls : list value;
  text : string;
  groundingSources : list value
}.

(** What [for (const part of parts)] walks through: the elements of an
    array, the characters of a string; anything else is not iterable. *)
Fixpoint chars (s : string) : list value :=
  match s with
  | EmptyString => []
  | String c r => VStr (String c EmptyString) :: chars r
  end.

Definition iterate (v : value) : option (list value) :=
  match v with
  | VArr l => Some l
  | VStr s => Some (chars s)
  | _ => None
  end.

(** [attr => ({ uri: attr.web?.uri, title: attr.web?.title })] *)
Definition attribution (attr : value) : option value :=
  web <- get attr "web" ;;
  Some (VObj [ ("uri", get_opt web "uri"); ("title", get_opt web "title") ]).

Fixpoint map_attributions (l : list value) : option (list value) :=
  match l with
  | [] => Some []
  | attr :: r =>
      s <- attribution attr ;;
      rest <- map_attributions r ;;
      Some (s :: rest)
  end.

(** [x.map(...)] on a value that came from JSON: only an array has the
    method. *)
Definition attributions (v : value) : option (list value) :=
  match v with
  | VArr l => map_attributions l
  | _ => None
  end.

(** The body of the loop of [parseAgentResponse]. *)
Definition visit_part (acc : Parsed) (part : value) : option Parsed :=
  functionCall <- get part "functionCall" ;;
  let calls := if truthy functionCall
               then (toolCalls acc ++ [functionCall])%list else toolCalls acc in
  part_text <- get part "text" ;;
  txt <- (if truthy part_text
          then option_map (append (text acc)) (to_string part_text)
          else Some (text acc)) ;;
  let attrs := get_opt (get_opt part "groundingMetadata") "groundingAttributions" in
  sources <- (if truthy attrs
              then option_map (fun more => (groundingSources acc ++ more)%list)
                                (attributions attrs)
              else Some (groundingSources acc)) ;;
  Some {| toolCalls := calls; text := txt; groundingSources := sources |}.

Fixpoint visit_parts (acc : Parsed) (parts : list value) : option Parsed :=
  match parts with
  | [] => Some acc
  | part :: r => acc' <- visit_part acc part ;; visit_parts acc' r
  end.

Definition parseAgentResponse (message : value) : option Parsed :=
  let parts := or_else (get_opt (get_opt message "content") "parts") (VArr []) in
  elems <- iterate parts ;;
  visit_parts {| toolCalls := []; text := ""; groundingSources := [] |} elems.

(** *** The conversation *)

(** An entry of [history]. A key the entry does not have reads as
    [undefined], which is how the field is kept. *)
Record Turn : Type := {
  role : string;
  content : value;
  widget : value;
  error : value
}.

Definition text_content (s : string) : value :=
  VObj [ ("parts", VArr [ VObj [ ("text", VStr s) ] ]) ].

Definition user_turn (s : string) : Turn :=
  {| role := "user"; content := text_content s;
     widget := VUndefined; error := VUndefined |}.

Definition error_turn (e : value) : Turn :=
  {| role := "error"; content := VUndefined; widget := VUndefined; error := e |}.

Definition greeting : Turn :=
  {| role := "agent";
     content := text_content
       "Hello! How can I assist you today? Try asking about 'home' or 'business' security packages.";
     widget := VUndefined; error := VUndefined |}.

(** The state of [App]: the three [useState] cells. *)
Record AppState : Type := {
  history : list Turn;
  input : string;
  isThinking : bool
}.

Definition initial_state : AppState :=
  {| history := [greeting]; input := ""; isThinking := false |}.

(** The three setters. [setHistory] is always called with an updater. *)
Definition setHistory (f : list Turn -> list Turn) (st : AppState) : AppState :=
  {| history := f (history st); input := input st; isThinking := isThinking st |}.

Definition setInput (s : string) (st : AppState) : AppState :=
  {| history := history st; input := s; isThinking := isThinking st |}.

Definition setIsThinking (b : bool) (st : AppState) : AppState :=
  {| history := history st; input := input st; isThinking := b |}.

(** [setHistory(h => [...h, turn])], the one way the page writes to the
    store. *)
Definition append_turn (st : AppState) (turn : Turn) : AppState :=
  setHistory (fun h => (h ++ [turn])%list) st.

(** What the display layer reads. *)
Definition snapshot (st : AppState) : list Turn := history st.

(** *** callAgent *)

Definition AGENT_ID : string := "security-sales-tool".

(** The body posted to the endpoint. *)
Record AgentPayload : Type := {
  agentId : string;
  sent_history : list Turn;
  toolOutputs : list value
}.

(** How [axios.post] ends: with the data of the response, or rejected. *)
Inductive Reply : Type :=
| Fulfilled (data : value)
| Rejected.

Definition connect_failure : string := "Failed to connect to the agent service.".

(** [callAgent] is [callAgent_payload] before the [await] and
    [callAgent_result] after it. The second parameter has the default
    [[]]. *)
Definition callAgent_payload (history : list Turn) : AgentPayload :=
  {| agentId := AGENT_ID; sent_history := history; toolOutputs := [] |}.

Definition callAgent_result (r : Reply) : value :=
  match r with
  | Fulfilled data => data
  | Rejected => VObj [ ("error", VStr connect_failure) ]
  end.

(** *** handleSendMessage *)

Definition confirmation : string := "Here are the recommended packages:".

Definition unexpected_failure : string :=
  "An unexpected error occurred during communication.".

(** The inner [try]: the widget found in [text], and [agentMessage] as the
    block leaves it. [JSON.parse] throwing, [data] being [null], and the
    write to [agentMessage] throwing all end in the empty [catch]; the
    last of them after [widget] was assigned. The object written to is part
    of the response just received and of no stored turn, so the write is
    the new value of [agentMessage] and of nothing else. *)
Definition detect_widget (text : string) (agentMessage : value) : value * value :=
  match parse text with
  | None => (VNull, agentMessage)
  | Some data =>
      match get data "widget_data" with
      | None => (VNull, agentMessage)
      | Some widget_data =>
          if truthy widget_data then
            match set agentMessage "text" (VStr confirmation) with
            | Some m => (widget_data, m)
            | None => (widget_data, agentMessage)
            end
          else (VNull, agentMessage)
      end
  end.

(** The outer [try] after the [await], up to its [setHistory]: the turn it
    appends, or [None] when it throws. *)
Definition response_turn (result : value) : option Turn :=
  err <- get result "error" ;;
  if truthy err then Some (error_turn err)
  else
    candidates <- get result "candidates" ;;
    candidate <- get candidates "0" ;;
    agentMessage <- get candidate "content" ;;
    parsedOutput <- parseAgentResponse agentMessage ;;
    let (widget, agentMessage') := detect_widget (text parsedOutput) agentMessage in
    Some {| role := "agent"; content := agentMessage';
            widget := if truthy widget then widget else VUndefined;
            error := VUndefined |}.

(** [handleSendMessage] up to its [await]: the new state and the body
    posted, or the state as it was and nothing posted when [isThinking]
    holds. [userText] is [None] for [null]; [toolName] is [None] for its
    default [null]; an [undefined] [toolArgs] takes its default [{}]. *)
Definition handleSendMessage_send (st : AppState) (userText toolName : option string)
    (toolArgs : value) : AppState * option AgentPayload :=
  if isThinking st then (st, None)
  else
    let newHistory := history st in
    let typed := match userText with
                 | Some t => negb (t =? "") && negb (is_blank t)
                 | None => false
                 end in
    let newHistory :=
      match userText with
      | Some t => if typed then (newHistory ++ [user_turn t])%list else newHistory
      | None => newHistory
      end in
    let newHistory :=
      match toolName with
      | None | Some EmptyString => newHistory
      | Some tool =>
          let args := match toolArgs with VUndefined => VObj [] | a => a end in
          let finalMessage :=
            "User clicked widget button: " ++ tool ++ "(" ++ stringify_in_template args ++ ")" in
          (newHistory ++ [user_turn finalMessage])%list
      end in
    let st := setIsThinking true st in
    let st := if typed then setInput "" st else st in
    (st, Some (callAgent_payload newHistory)).

(** [handleSendMessage] from the [await] on: one turn is appended, by the
    [try] or by the [catch], and the [finally] clears [isThinking]. *)
Definition handleSendMessage_settle (st : AppState) (r : Reply) : AppState :=
  let turn := match response_turn (callAgent_result r) with
              | Some t => t
              | None => error_turn (VStr unexpected_failure)
              end in
  setIsThinking false (append_turn st turn).

(** One whole call of [handleSendMessage], the [await] ending with [r]. *)
Definition handleSendMessage (st : AppState) (userText toolName : option string)
    (toolArgs : value) (r : Reply) : AppState :=
  let (st', posted) := handleSendMessage_send st userText toolName toolArgs in
  match posted with
  | Some _ => handleSendMessage_settle st' r
  | None => st'
  end.

(** *** The page as a transition system

    [inflight] holds the bodies posted and not yet answered. Every [Send]
    is the handler of a render of the state as it is: the page renders
    between any two events. [Closure] below lets calls come before the
    render. *)
Record System : Type := {
  app : AppState;
  inflight : list AgentPayload
}.

Inductive Event : Type :=
| Send (userText toolName : option string) (toolArgs : value)
| Settle (r : Reply)
| Type_ (s : string).

Definition initial_system : System := {| app := initial_state; inflight := [] |}.

Definition step (sys : System) (ev : Event) : System :=
  match ev with
  | Send userText toolName toolArgs =>
      let (st, posted) := handleSendMessage_send (app sys) userText toolName toolArgs in
      {| app := st;
         inflight := match posted with
                     | Some p => (inflight sys ++ [p])%list
                     | None => inflight sys
                     end |}
  | Settle r =>
      match inflight sys with
      | [] => sys
      | _ :: rest => {| app := handleSendMessage_settle (app sys) r; inflight := rest |}
      end
  | Type_ s => {| app := setInput s (app sys); inflight := inflight sys |}
  end.

Definition run (evs : list Event) (sys : System) : System := fold_left step evs sys.

(** What the page does with the text box and with a widget button. *)
Definition submit (t : string) : Event := Send (Some t) None (VObj []).
Definition agentCall (toolName : string) (args : value) : Event := Send None (Some toolName) args.

(** *** ChatMessage *)

(** What a turn looks like on the page, without its styling and without
    the note under a pending tool call. *)
Inductive Rendered : Type :=
| ErrorBox (message : value)
| WidgetBox (html : value)
| TextBubble (isAgent : bool) (shown : string) (sources : list value).

(** [v > 0] converts an object to a primitive first, which can throw. *)
Definition comparable (v : value) : bool :=
  match to_string v with Some _ => true | None => false end.

(** [None] is an exception thrown while rendering. *)
Definition ChatMessage (message : value) (isAgent isError showLoading : bool)
  : option Rendered :=
  parsed <- parseAgentResponse message ;;
  calls <- get message "toolCalls" ;;
  _ <- (if truthy calls && negb (comparable (get_opt calls "length"))
        then None else Some tt) ;;
  msg_role <- get message "role" ;;
  let isWidget :=
    match msg_role with
    | VStr r => if r =? "tool" then get_opt message "widget" else VBool false
    | _ => VBool false
    end in
  if isError then
    e <- get message "error" ;; Some (ErrorBox e)
  else if truthy isWidget then
    Some (WidgetBox (get_opt (get_opt message "widget") "html"))
  else
    Some (TextBubble isAgent
            (if showLoading then "Agent is thinking..." else text parsed)
            (firstn 3 (groundingSources parsed))).

(** The element [App] makes for the turn at [index]: [ChatMessage] is
    handed [message.content]. *)
Definition render_turn (st : AppState) (index : nat) (message : Turn) : option Rendered :=
  ChatMessage (content message)
    (role message =? "agent") (role message =? "error")
    ((index =? List.length (history st) - 1)%nat && isThinking st).

Definition render_last (st : AppState) : option Rendered :=
  match List.rev (history st) with
  | [] => None
  | message :: _ => render_turn st (List.length (history st) - 1) message
  end.

(** *** Inputs and predicates for the statements below *)

(** A reply of the shape the agent boundary documents:
    [{ candidates: [{ content: { parts: [{ text }] } }] }]. *)
Definition reply_text (t : string) : value :=
  VObj [ ("candidates", VArr [ VObj [ ("content", text_content t) ] ]) ].

(** The text [generateOfferWidget] produces for the offers of [home]. *)
Definition widget_text : string :=
  stringify_object (Server.widget_success (Server.home Server.OFFERS)).

(** The agent call failed: the transport did, or the response has an
    [error] field that is set. *)
Definition agent_call_failed (r : Reply) : Prop :=
  r = Rejected
  \/ exists data e, r = Fulfilled data /\ get data "error" = Some e /\ truthy e = true.

(** The page while a call is out. *)
Definition awaiting (st : AppState) : AppState := setIsThinking true st.

End Client.

(** ** JSON text on the wire

    What the server serialises the client parses. The values that make the
    trip without change are the ones below: no number (a number comes back
    as the decimal it was printed as), nothing [JSON.stringify] drops, no
    key twice in an object. *)

Module Wire.

Import Str JS.

Fixpoint distinct_keys (props : list (string * value)) : bool :=
  match props with
  | [] => true
  | (k, _) :: r => negb (existsb (fun kv => k =? fst kv) r) && distinct_keys r
  end.

Fixpoint plain (v : value) : bool :=
  match v with
  | VNull | VBool _ | VStr _ => true
  | VArr l => forallb plain l
  | VObj props => distinct_keys props && forallb (fun kv => plain (snd kv)) props
  | VUndefined | VNum _ | VFun _ => false
  end.

(** The text [JSON.stringify] writes for an element of an array. *)
Definition text_of (v : value) : string :=
  match stringify v with Some s => s | None => "null" end.

(** The inside of the brackets and of the braces [stringify] writes. *)
Fixpoint items_text (first : bool) (l : list value) : string :=
  match l with
  | [] => ""
  | x :: r =>
      (if first then "" else ",")
      ++ match stringify x with Some s => s | None => "null" end
      ++ items_text false r
  end.

Fixpoint members_text (first : bool) (l : list (string * value)) : string :=
  match l with
  | [] => ""
  | (k, x) :: r =>
      match stringify x with
      | Some s => (if first then "" else ",") ++ quote k ++ ":" ++ s ++ members_text false r
      | None => members_text first r
      end
  end.

(** The tokens of the text of a value. *)
Fixpoint tokens (v : value) : list token :=
  match v with
  | VArr l =>
      TLBracket ::
      ((fix items (first : bool) (l : list value) : list token :=
          match l with
          | [] => []
          | x :: r => (if first then [] else [TComma]) ++ tokens x ++ items false r
          end) true l ++ [TRBracket])%list
  | VObj props =>
      TLBrace ::
      ((fix members (first : bool) (l : list (string * value)) : list token :=
          match l with
          | [] => []
          | (k, x) :: r =>
              (if first then [] else [TComma])
              ++ TScalar (VStr k) :: TColon :: tokens x ++ members false r
          end) true props ++ [TRBrace])%list
  | _ => [TScalar v]
  end.

Fixpoint items_tokens (first : bool) (l : list value) : list token :=
  match l with
  | [] => []
  | x :: r => ((if first then [] else [TComma]) ++ tokens x ++ items_tokens false r)%list
  end.

Fixpoint members_tokens (first : bool) (l : list (string * value)) : list token :=
  match l with
  | [] => []
  | (k, x) :: r =>
      ((if first then [] else [TComma])
       ++ TScalar (VStr k) :: TColon :: tokens x ++ members_tokens false r)%list
  end.

(** A text after which a word ([true], [false], [null]) is complete: the
    end, or a character that is not part of a word. *)
Definition terminated (rest : string) : Prop :=
  match rest with
  | EmptyString => True
  | String c _ => is_word_char c = false
  end.

(** The lexer reads the text of [v] into the tokens of [v]; the parser
    reads the tokens of [v] into [v]. *)
Definition lexes (v : value) : Prop :=
  plain v = true ->
  forall rest out, terminated rest ->
    lex (text_of v ++ rest) LIdle out = lex rest LIdle (List.rev (tokens v) ++ out)%list.

Definition parses (v : value) : Prop :=
  plain v = true ->
  forall ts stk e res, wants_value e = true ->
    parse_tokens (tokens v ++ ts) (Parser stk e res)
    = match deliver v stk with
      | Some p => parse_tokens ts p
      | None => None
      end.

(** Induction on a value, with the elements of an array and the values of
    an object as premises. *)
Section ValueInduction.
Variable P : value -> Prop.
Hypothesis Hundefined : P VUndefined.
Hypothesis Hnull : P VNull.
Hypothesis Hbool : forall b, P (VBool b).
Hypothesis Hnum : forall n, P (VNum n).
Hypothesis Hstr : forall s, P (VStr s).
Hypothesis Hfun : forall n, P (VFun n).
Hypothesis Harr : forall l, Forall P l -> P (VArr l).
Hypothesis Hobj : forall props, Forall (fun kv => P (snd kv)) props -> P (VObj props).

Fixpoint value_induction (v : value) : P v :=
  match v with
  | VUndefined => Hundefined
  | VNull => Hnull
  | VBool b => Hbool b
  | VNum n => Hnum n
  | VStr s => Hstr s
  | VFun n => Hfun n
  | VArr l =>
      Harr l ((fix go (l : list value) : Forall P l :=
                 match l with
                 | [] => Forall_nil P
                 | x :: r => Forall_cons x (value_induction x) (go r)
                 end) l)
  | VObj props =>
      Hobj props
        ((fix go (l : list (string * value)) : Forall (fun kv => P (snd kv)) l :=
            match l with
            | [] => Forall_nil _
            | kv :: r => Forall_cons kv (value_induction (snd kv)) (go r)
            end) props)
  end.
End ValueInduction.

(** What the receiving side of an HTTP exchange has of a JSON body: the
    parsed value, or the text when it does not parse. *)
Definition received (text : string) : value :=
  match parse text with
  | Some v => v
  | None => VStr text
  end.

End Wire.

(** ** Sequences of tool calls *)

Module Calls.

Import Str JS Server.

(** A call of one of the three registered tools. *)
Inductive ToolCall : Type :=
| GetOffers (input : GetOffersInput)
| CreatePurchaseLink (input : CreateLinkInput)
| GenerateOfferWidget (input : WidgetInput).

Definition handle (c : ToolCall) : M Envelope :=
  match c with
  | GetOffers input => getOffers input
  | CreatePurchaseLink input => createPurchaseLink input
  | GenerateOfferWidget input => generateOfferWidget input
  end.

Fixpoint handle_all (cs : list ToolCall) : M (list Envelope) :=
  match cs with
  | [] => ret []
  | c :: r => e <- handle c ;; es <- handle_all r ;; ret (e :: es)
  end.

(** A call that makes a link: [createPurchaseLink] with an offer id. *)
Definition makes_link (c : ToolCall) : bool :=
  match c with
  | CreatePurchaseLink input =>
      match offer_id input with
      | Some (String _ _) => true
      | _ => false
      end
  | _ => false
  end.

(** A call that writes a line to the console. *)
Definition writes_log (c : ToolCall) : bool :=
  match c with
  | GetOffers _ => true
  | CreatePurchaseLink _ => makes_link c
  | GenerateOfferWidget _ => false
  end.

Definition count (f : ToolCall -> bool) (cs : list ToolCall) : nat :=
  List.length (filter f cs).

(** An offer whose fields need escaping in JSON. *)
Definition quoted_offer : Offer :=
  {| id := "a" ++ dq ++ "b"; name := "A " ++ bs ++ " B"; price := Num 5 0;
     description := "line" ++ nl ++ "break" |}.

End Calls.

(** ** The controls of the chat page *)

Module Page.

Import Str JS Client.

(** The two kinds of part the agent's content is made of. *)
Inductive Part : Type :=
| TextPart (t : string)
| CallPart (functionCall : value).

Definition part_value (p : Part) : value :=
  match p with
  | TextPart t => VObj [ ("text", VStr t) ]
  | CallPart functionCall => VObj [ ("functionCall", functionCall) ]
  end.

(** A message as [parseAgentResponse] reads it: [{ content: { parts } }]. *)
Definition message_of (parts : list value) : value :=
  VObj [ ("content", VObj [ ("parts", VArr parts) ]) ].

Fixpoint texts (ps : list Part) : string :=
  match ps with
  | [] => ""
  | TextPart t :: r => t ++ texts r
  | CallPart _ :: r => texts r
  end.

Fixpoint calls (ps : list Part) : list value :=
  match ps with
  | [] => []
  | TextPart _ :: r => calls r
  | CallPart c :: r => if truthy c then c :: calls r else calls r
  end.

(** A part that carries grounding: its attributions, each with the [uri]
    and the [title] of a web source; and the source [parseAgentResponse]
    makes of one. *)
Definition attribution_value (source : value * value) : value :=
  VObj [ ("web", VObj [ ("uri", fst source); ("title", snd source) ]) ].

Definition grounded_part (sources : list (value * value)) : value :=
  VObj [ ("groundingMetadata",
          VObj [ ("groundingAttributions", VArr (map attribution_value sources)) ]) ].

Definition source_value (source : value * value) : value :=
  VObj [ ("uri", fst source); ("title", snd source) ].

(** What the user can do: a key in the text box ([handleKeyPress]), the
    Send button, an edit of the text box, and a button of a widget
    ([window.agentCall]). The button is disabled while the text is blank or
    a call is out, the text box while a call is out. *)
Inductive Action : Type :=
| PressKey (key : string)
| ClickSend
| ChangeInput (s : string)
| WidgetButton (toolName : string) (args : value).

Definition act (sys : System) (a : Action) : System :=
  let st := app sys in
  match a with
  | PressKey key =>
      if (key =? "Enter") && negb (is_blank (input st)) && negb (isThinking st)
      then step sys (submit (input st)) else sys
  | ClickSend =>
      if is_blank (input st) || isThinking st
      then sys else step sys (submit (input st))
  | ChangeInput s =>
      if isThinking st then sys else step sys (Type_ s)
  | WidgetButton toolName args => step sys (agentCall toolName args)
  end.

End Page.

(** ** The completion page: [src/pages/api/chat.js] and [src/pages/index.js] *)

Module ChatApi.

Import Str JS.

Notation "x <- m ;; k" := (match m with Some x => k | None => None end)
  (at level 61, m at next level, right associativity).

Record Request : Type := { method : string; body : value }.

(** What the handler sent: [res.status(n).end()] has no body,
    [res.status(n).json(v)] the body [v]. *)
Record Answer : Type := { status : nat; sent : option value }.

(** Where the handler is when it stops before its [await]: it has
    answered, it has thrown, or it has posted to the completion API. *)
Inductive Started : Type :=
| Answered (a : Answer)
| Threw
| Posted (url : string) (payload : value) (authorization : string).

Definition COMPLETIONS : string := "https://api.openai.com/v1/chat/completions".

Definition api_failure : Answer :=
  {| status := 500; sent := Some (VObj [ ("reply", VStr "Error from OpenAI API") ]) |}.

(** [handler] up to the [await]. [api_key] is [process.env.OPENAI_API_KEY],
    [None] when the variable is not set. The destructuring of [req.body]
    is outside the [try]. *)
Definition handler_start (api_key : option string) (req : Request) : Started :=
  if negb (method req =? "POST") then Answered {| status := 405; sent := None |}
  else
    match get (body req) "message" with
    | None => Threw
    | Some message =>
        Posted COMPLETIONS
          (VObj [ ("model", VStr "gpt-4o-mini");
                  ("messages", VArr [ VObj [ ("role", VStr "user"); ("content", message) ] ]) ])
          ("Bearer " ++ match api_key with Some k => k | None => "undefined" end)
    end.

(** [response.data.choices[0].message.content] *)
Definition completion (data : value) : option value :=
  choices <- get data "choices" ;;
  choice <- get choices "0" ;;
  message <- get choice "message" ;;
  get message "content".

(** [handler] from the [await] on. *)
Definition handler_finish (r : Client.Reply) : Answer :=
  match r with
  | Client.Fulfilled data =>
      match completion data with
      | Some reply => {| status := 200; sent := Some (VObj [ ("reply", reply) ]) |}
      | None => api_failure
      end
  | Client.Rejected => api_failure
  end.

(** The whole handler, its [await] ending with [r]: the answer it sends,
    or [None] when it throws before it sends one. *)
Definition handler (api_key : option string) (req : Request) (r : Client.Reply)
  : option Answer :=
  match handler_start api_key req with
  | Answered a => Some a
  | Threw => None
  | Posted _ _ _ => Some (handler_finish r)
  end.

(** The page [Home]: its two [useState] cells. *)
Record HomeState : Type := { message : string; response : value }.

Definition initial_home : HomeState := {| message := ""; response := VStr "" |}.

(** [handleSubmit] up to its [await]: the body posted to [/api/chat]. *)
Definition handleSubmit_post (st : HomeState) : value :=
  VObj [ ("message", VStr (message st)) ].

(** [handleSubmit] from the [await] on; there is no [catch], so a rejected
    post and an unreadable answer throw ([None]) and leave the state as it
    was. *)
Definition handleSubmit_settle (st : HomeState) (r : Client.Reply) : option HomeState :=
  match r with
  | Client.Fulfilled data =>
      reply <- get data "reply" ;;
      Some {| message := message st; response := reply |}
  | Client.Rejected => None
  end.

(** The request the route receives for a JSON body posted to it. *)
Definition request_of (posted : value) : Request :=
  {| method := "POST"; body := Wire.received (Wire.text_of posted) |}.

(** What [axios.post] makes of an answer: a status from 200 to 299 fulfils
    the promise with the body as received, any other status rejects it. *)
Definition axios_outcome (a : Answer) : Client.Reply :=
  if ((200 <=? status a) && (status a <? 300))%nat
  then Client.Fulfilled
         match sent a with
         | Some v => Wire.received (Wire.text_of v)
         | None => VStr ""
         end
  else Client.Rejected.

End ChatApi.

(** ** The handlers over the host's own case mapping and number format

    [Str.toLowerCase] lowers the letters A to Z and [JS.toFixed2] rounds
    the decimal a number is written as: what [String.prototype.toLowerCase]
    and [Number.prototype.toFixed] do on ASCII text and on prices of two
    decimals. The tables behind the two built-ins are not part of the
    program, so here the handlers take the two functions as they are on the
    host; the handlers of [Server] are these at [Str.toLowerCase] and
    [JS.toFixed2]. *)

Module Hosted.

Import Str JS Server Calls.

Section Host.

(** [s.toLowerCase()] and [x.toFixed(2)] on the host. *)
Variable toLowerCase : string -> string.
Variable toFixed2 : number -> string.

Definition selected (input : GetOffersInput) : string :=
  match category input with
  | Some c => if c =? "" then "home" else toLowerCase c
  | None => "home"
  end.

Definition getOffers (input : GetOffersInput) : M Envelope :=
  let selectedCategory :=
    match category input with
    | Some c => if c =? "" then "home" else toLowerCase c
    | None => "home"
    end in
  let offers := or_else (OFFERS_at selectedCategory) (offers_value (home OFFERS)) in
  console_log ("MCP Tool Call: getOffers, Category: " ++ selectedCategory) ;;
  ret {| content := [ text_item (stringify_object [("offers", offers)]) ] |}.

Definition checkout_url (offer_id uuid : string) : string :=
  "https://your-company.com/checkout/" ++ toLowerCase offer_id
  ++ "?source=agent-" ++ substring 0 8 uuid.

Definition createPurchaseLink (input : CreateLinkInput) : M Envelope :=
  match offer_id input with
  | None | Some EmptyString =>
      ret {| content := [ text_item missing_offer_id ] |}
  | Some offer_id =>
      uuid <- randomUUID ;;
      let checkoutUrl := checkout_url offer_id uuid in
      console_log ("MCP Tool Call: createPurchaseLink, Offer ID: " ++ offer_id) ;;
      ret {| content :=
               [ text_item (stringify_object [("purchase_url", VStr checkoutUrl)]) ] |}
  end.

Definition card (offer : Offer) : string :=
  nl
  ++ "            <div class=" ++ dq ++ "p-4 bg-white rounded-xl shadow-lg border border-indigo-100 mb-4 transition-all hover:shadow-xl hover:scale-[1.01] cursor-pointer" ++ dq ++ " " ++ nl
  ++ "                 data-offer-id=" ++ dq ++ id offer ++ dq ++ ">" ++ nl
  ++ "                <div class=" ++ dq ++ "flex items-start justify-between" ++ dq ++ ">" ++ nl
  ++ "                    <h3 class=" ++ dq ++ "text-xl font-bold text-indigo-700" ++ dq ++ ">" ++ name offer ++ "</h3>" ++ nl
  ++ "                    <p class=" ++ dq ++ "text-2xl font-extrabold text-gray-900" ++ dq ++ ">$" ++ toFixed2 (price offer) ++ "</p>" ++ nl
  ++ "                </div>" ++ nl
  ++ "                <p class=" ++ dq ++ "text-sm text-gray-500 mt-2" ++ dq ++ ">" ++ description offer ++ "</p>" ++ nl
  ++ "                <!-- This button would trigger a subsequent action or tool call -->" ++ nl
  ++ "                <button class=" ++ dq ++ "mt-4 w-full bg-indigo-600 text-white py-2 rounded-lg font-medium hover:bg-indigo-700 transition duration-150" ++ dq ++ nl
  ++ "                        onclick=" ++ dq ++ "agentCall('createPurchaseLink', {offer_id: '" ++ id offer ++ "'})" ++ dq ++ ">" ++ nl
  ++ "                    Select Plan" ++ nl
  ++ "                </button>" ++ nl
  ++ "            </div>" ++ nl
  ++ "        ".

Definition widgetHtml (offers : list Offer) : string :=
  String.concat "" (map card offers).

Definition finalWidget (offers : list Offer) : string :=
  widget_head ++ widgetHtml offers ++ widget_tail.

Definition widget_success (offers : list Offer) : list (string * value) :=
  [ ("status", VStr "success");
    ("widget_data",
     VObj [ ("html", VStr (finalWidget offers));
            ("metadata", VObj [ ("offers", VArr (map (fun o => VStr (id o)) offers)) ]) ]) ].

Definition generateOfferWidget (input : WidgetInput) : M Envelope :=
  match offers input with
  | None | Some [] =>
      ret {| content := [ text_item (stringify_object widget_error) ] |}
  | Some offers =>
      ret {| content := [ text_item (stringify_object (widget_success offers)) ] |}
  end.

Definition handle (c : ToolCall) : M Envelope :=
  match c with
  | GetOffers input => getOffers input
  | CreatePurchaseLink input => createPurchaseLink input
  | GenerateOfferWidget input => generateOfferWidget input
  end.

Fixpoint handle_all (cs : list ToolCall) : M (list Envelope) :=
  match cs with
  | [] => ret []
  | c :: r => e <- handle c ;; es <- handle_all r ;; ret (e :: es)
  end.

End Host.

(** Three UUIDs that differ in their first eight characters. *)
Definition numbered_uuids (n : nat) : string :=
  match n with
  | 0 => "00000000-0000-4000-8000-000000000000"
  | 1 => "11111111-1111-4111-8111-111111111111"
  | _ => "22222222-2222-4222-8222-222222222222"
  end.

End Hosted.

(** ** The page with its closures

    [handleSendMessage] is made by [useCallback] in a render, and what it
    reads of [history] and [isThinking] are the values of that render; what
    it writes goes to the cells through their setters. The handlers the
    user reaches, [window.agentCall] among them, are those of the last
    render. [store] is the cells as last written, [seen] their values in
    the last render, [out] the bodies posted and not yet answered. *)

Module Closure.

Import Str JS Client.

Record Page : Type := {
  store : AppState;
  seen : AppState;
  out : list AgentPayload
}.

Definition initial_page : Page :=
  {| store := initial_state; seen := initial_state; out := [] |}.

(** [handleSendMessage] up to its [await], closed over [closed]: [None]
    when it returns at its first line, else the writes it makes to the
    cells and the body it posts. *)
Definition handleSendMessage_call (closed : AppState) (userText toolName : option string)
    (toolArgs : value) : option ((AppState -> AppState) * AgentPayload) :=
  if isThinking closed then None
  else
    let newHistory := history closed in
    let typed := match userText with
                 | Some t => negb (t =? "") && negb (is_blank t)
                 | None => false
                 end in
    let newHistory :=
      match userText with
      | Some t => if typed then (newHistory ++ [user_turn t])%list else newHistory
      | None => newHistory
      end in
    let newHistory :=
      match toolName with
      | None | Some EmptyString => newHistory
      | Some tool =>
          let args := match toolArgs with VUndefined => VObj [] | a => a end in
          let finalMessage :=
            "User clicked widget button: " ++ tool ++ "(" ++ stringify_in_template args ++ ")" in
          (newHistory ++ [user_turn finalMessage])%list
      end in
    Some (fun st => let st := setIsThinking true st in
                    if typed then setInput "" st else st,
          callAgent_payload newHistory).

(** The body at position [k] taken out of the bodies in flight. *)
Definition without (k : nat) (l : list AgentPayload) : list AgentPayload :=
  (firstn k l ++ skipn (S k) l)%list.

(** What happens on the page: a call of the handler of the last render, a
    render, the answer to the call at position [k] in [out], an edit of
    the text box. An answer writes with [setHistory(h => [...h, turn])] and
    [setIsThinking(false)], on the cells as they are. *)
Inductive Happening : Type :=
| Call (userText toolName : option string) (toolArgs : value)
| Render
| Answer (k : nat) (r : Reply)
| Edit (s : string).

Definition happen (p : Page) (h : Happening) : Page :=
  match h with
  | Call userText toolName toolArgs =>
      match handleSendMessage_call (seen p) userText toolName toolArgs with
      | None => p
      | Some (write, body) =>
          {| store := write (store p); seen := seen p; out := (out p ++ [body])%list |}
      end
  | Render => {| store := store p; seen := store p; out := out p |}
  | Answer k r =>
      match nth_error (out p) k with
      | None => p
      | Some _ =>
          {| store := handleSendMessage_settle (store p) r;
             seen := seen p;
             out := without k (out p) |}
      end
  | Edit s => {| store := setInput s (store p); seen := seen p; out := out p |}
  end.

Definition play (hs : list Happening) (p : Page) : Page := fold_left happen hs p.

(** Two widget buttons pressed one after the other. *)
Definition first_click : Happening :=
  Call None (Some "createPurchaseLink") (VObj [ ("offer_id", VStr "home_basic") ]).

Definition second_click : Happening :=
  Call None (Some "createPurchaseLink") (VObj [ ("offer_id", VStr "home_pro") ]).

(** What holds of the page whatever happened: the stored conversation is
    the greeting and then turns of the agent and error turns; the render
    has seen the greeting and some of these; every body in flight carries
    the greeting, some of these, and then at most two turns of the user. *)
Definition carries (rest : list Turn) (body : AgentPayload) : Prop :=
  exists earlier later added,
    rest = (earlier ++ later)%list
    /\ sent_history body = (greeting :: earlier ++ added)%list
    /\ (List.length added <= 2)%nat
    /\ Forall (fun t => role t = "user") added.

Definition consistent (p : Page) : Prop :=
  exists rest,
    history (store p) = greeting :: rest
    /\ Forall (fun t => role t = "agent" \/ role t = "error") rest
    /\ (exists earlier later,
           rest = (earlier ++ later)%list /\ history (seen p) = greeting :: earlier)
    /\ forall body, In body (out p) -> carries rest body.

End Closure.

(** * Properties *)

(** ** Strings *)

Section StringFacts.

Import Str.

Lemma append_nil_r (s : string) : s ++ "" = s.
Proof. induction s as [|c s IH]; simpl; [reflexivity | now rewrite IH]. Qed.

Lemma append_assoc (a b c : string) : (a ++ b) ++ c = a ++ (b ++ c).
Proof. induction a as [|x a IH]; simpl; [reflexivity | now rewrite IH]. Qed.

Lemma append_inj_l (s a b : string) : s ++ a = s ++ b -> a = b.
Proof.
  induction s as [|c s IH]; simpl; intros H; [exact H|].
  injection H as H. now apply IH.
Qed.

Lemma includes_middle (pre sub post : string) : includes (pre ++ sub ++ post) sub.
Proof. now exists pre, post. Qed.

Lemma lower_char_not_upper (c : ascii) : is_upper (lower_char c) = false.
Proof. destruct c as [[] [] [] [] [] [] [] []]; reflexivity. Qed.

Lemma toLowerCase_no_upper (s : string) : has_upper (toLowerCase s) = false.
Proof.
  induction s as [|c s IH]; simpl; [reflexivity|].
  now rewrite lower_char_not_upper, IH.
Qed.

End StringFacts.

(** ** The runtime on examples *)

Section RuntimeExamples.

Import Str JS.

Example parse_rejects_prose :
  parse "Hello there" = None /\ parse "" = None /\ parse "[1,]" = None.
Proof. repeat split. Qed.

Example parse_reads_object :
  parse ("{" ++ dq ++ "a" ++ dq ++ ": [1, -2.5e1, null], " ++ dq ++ "b" ++ dq ++ ": {}}")
  = Some (VObj [ ("a", VArr [ VNum (Num 1 0); VNum (Num (-25) 0); VNull ]);
                 ("b", VObj []) ]).
Proof. reflexivity. Qed.

Example numbers_printed :
  number_to_string (Num 4999 (-2)) = "49.99"
  /\ number_to_string (Num 19990 (-2)) = "199.9"
  /\ toFixed2 (Num 4999 (-2)) = "49.99"
  /\ toFixed2 (Num 5 0) = "5.00".
Proof. repeat split. Qed.

Example catalog_round_trip :
  parse (stringify_object [ ("offers", Server.offers_value (Server.home Server.OFFERS)) ])
  = Some (VObj [ ("offers", Server.offers_value (Server.home Server.OFFERS)) ]).
Proof. vm_compute. reflexivity. Qed.

Example inherited_names_are_found :
  get (VObj []) "constructor" = Some (VFun "Object")
  /\ get (VObj []) "home" = Some VUndefined
  /\ stringify (VObj [ ("offers", VFun "Object") ]) = Some "{}".
Proof. repeat split. Qed.

End RuntimeExamples.

(** ** The tool server *)

Section ServerFacts.

Import Str JS Server.

Lemma getOffers_unfold (input : GetOffersInput) (w : World) :
  fst (getOffers input w)
  = envelope_of [("offers", or_else (OFFERS_at (selected input))
                                    (offers_value (home OFFERS)))].
Proof. reflexivity. Qed.

Lemma selected_no_upper (input : GetOffersInput) : has_upper (selected input) = false.
Proof.
  unfold selected. destruct (category input) as [c|]; [|reflexivity].
  destruct (c =? ""); [reflexivity | apply toLowerCase_no_upper].
Qed.

(** A key in lower case finds nothing in [OFFERS] unless it is one of its
    two categories or one of the two lower-case names of
    [Object.prototype]. *)
Lemma OFFERS_at_unknown (key : string) :
  has_upper key = false ->
  key <> "home" -> key <> "business" ->
  key <> "constructor" -> key <> "__proto__" ->
  OFFERS_at key = VUndefined.
Proof.
  intros Hup Hh Hb Hc Hp.
  unfold OFFERS_at, get_opt, get, OFFERS_object, object_prototype.
  cbn [assoc].
  repeat match goal with
         | |- context [key =? ?name] =>
             destruct (String.eqb_spec key name) as [E|_];
             [ first [ contradiction | rewrite E in Hup; discriminate Hup ] | ]
         end.
  reflexivity.
Qed.

(** The part of the claim on [getOffers] that the handler keeps: a known
    category, in any case, gives its offers in catalog order. *)
Lemma getOffers_known (c : string) (w : World) :
  (toLowerCase c = "home" ->
   fst (getOffers {| category := Some c |} w)
   = envelope_of [("offers", offers_value (home OFFERS))])
  /\ (toLowerCase c = "business" ->
      fst (getOffers {| category := Some c |} w)
      = envelope_of [("offers", offers_value (business OFFERS))]).
Proof.
  split; intros H; rewrite getOffers_unfold; unfold selected; cbn [category];
    (destruct (String.eqb_spec c "") as [E|_];
     [ subst c; discriminate H | rewrite H; reflexivity ]).
Qed.

(** The fallback, where it holds: no category, or one that is neither a
    category nor an inherited name, gives the offers of [home]. *)
Lemma getOffers_fallback (input : GetOffersInput) (w : World) :
  selected input <> "business" ->
  selected input <> "constructor" -> selected input <> "__proto__" ->
  fst (getOffers input w) = envelope_of [("offers", offers_value (home OFFERS))].
Proof.
  intros Hb Hc Hp. rewrite getOffers_unfold.
  destruct (String.eqb_spec (selected input) "home") as [E|Hh].
  - rewrite E. reflexivity.
  - rewrite OFFERS_at_unknown; auto using selected_no_upper.
Qed.

Lemma includes_here (sub post : string) : includes (sub ++ post) sub.
Proof. now exists "", post. Qed.

Lemma includes_skip (s t sub : string) : includes t sub -> includes (s ++ t) sub.
Proof.
  intros (pre & post & E). exists (s ++ pre), post.
  now rewrite E, append_assoc.
Qed.

(** C2 (code defect). [getOffers] does not fall back to the offers of
    [home] for every category it does not know: the category
    [constructor] is found on [Object.prototype], the value found is
    truthy, and the envelope carries the text [{}], with no offers at all.
    The category [__proto__] fails the same way. *)
Theorem getOffers_inherited_category (w : World) :
  fst (getOffers {| category := Some "constructor" |} w)
  = {| content := [ text_item "{}" ] |}
  /\ fst (getOffers {| category := Some "constructor" |} w)
     <> envelope_of [("offers", offers_value (home OFFERS))]
  /\ fst (getOffers {| category := Some "__proto__" |} w)
     = {| content := [ text_item ("{" ++ dq ++ "offers" ++ dq ++ ":{}}") ] |}.
Proof.
  repeat split.
  intros H. vm_compute in H. discriminate H.
Qed.

(** C9. With [offer_id] absent or empty, [createPurchaseLink] returns
    the one text item that asks for an offer id, and it does so before
    anything else: no UUID is drawn and nothing is logged, the world is as
    it was. The handler decides this by itself, on the input it is
    given. *)
Theorem createPurchaseLink_missing_id (w : World) :
  createPurchaseLink {| offer_id := None |} w
  = ({| content := [ {| type := "text"; text := missing_offer_id |} ] |}, w)
  /\ createPurchaseLink {| offer_id := Some "" |} w
     = ({| content := [ {| type := "text"; text := missing_offer_id |} ] |}, w).
Proof. split; reflexivity. Qed.

(** C10. Each of the three handlers returns, for every input and on
    every branch, an envelope whose content is exactly one item, of type
    [text]. *)
Theorem handlers_return_one_text_item :
  (forall input w,
      List.length (content (fst (getOffers input w))) = 1%nat
      /\ Forall (fun i => type i = "text") (content (fst (getOffers input w))))
  /\ (forall input w,
         List.length (content (fst (createPurchaseLink input w))) = 1%nat
         /\ Forall (fun i => type i = "text") (content (fst (createPurchaseLink input w))))
  /\ (forall input w,
         List.length (content (fst (generateOfferWidget input w))) = 1%nat
         /\ Forall (fun i => type i = "text") (content (fst (generateOfferWidget input w)))).
Proof.
  split; [|split]; intros input w.
  - rewrite getOffers_unfold. split; [reflexivity | repeat constructor].
  - destruct input as [[[|c s]|]]; split; try reflexivity; repeat constructor.
  - destruct input as [[[|o os]|]]; split; try reflexivity; repeat constructor.
Qed.

(** Two calls for the same offer, the source of UUIDs handing out two
    different UUIDs: the envelopes, and the URLs in them, are the same. *)
Lemma same_offer_same_url :
  close_uuids 0 <> close_uuids 1
  /\ (let first := createPurchaseLink {| offer_id := Some "home_pro" |}
                     (quiet_world close_uuids) in
      let second := createPurchaseLink {| offer_id := Some "home_pro" |} (snd first) in
      drawn (snd first) = 1%nat
      /\ fst first = fst second
      /\ checkout_url "home_pro" (close_uuids 0) = checkout_url "home_pro" (close_uuids 1)).
Proof.
  split; [discriminate|]. repeat split.
Qed.

End ServerFacts.

(** ** The chat page *)

Section ClientFacts.

Import Str JS Client.

(** [parseAgentResponse] looks for [message.content.parts]. Handed an
    object that has no [content] of its own, it finds no part at all. *)
Lemma parseAgentResponse_no_content (props : list (string * value)) :
  assoc "content" props = None ->
  parseAgentResponse (VObj props)
  = Some {| toolCalls := []; text := ""; groundingSources := [] |}.
Proof.
  intros H. unfold parseAgentResponse, get_opt, get. rewrite H. reflexivity.
Qed.

(** So a reply of the documented shape, whatever its parts say, gives an
    agent turn with no widget. *)
Lemma documented_reply_untagged (props : list (string * value)) :
  assoc "content" props = None ->
  response_turn (VObj [ ("candidates", VArr [ VObj [ ("content", VObj props) ] ]) ])
  = Some {| role := "agent"; content := VObj props;
            widget := VUndefined; error := VUndefined |}.
Proof.
  intros H. unfold response_turn. cbn [get assoc String.eqb Ascii.eqb Bool.eqb truthy
    object_prototype array_index nth].
  rewrite (parseAgentResponse_no_content props H). reflexivity.
Qed.

Lemma response_turn_role (result : value) (t : Turn) :
  response_turn result = Some t -> role t = "agent" \/ role t = "error".
Proof.
  unfold response_turn. intros H.
  destruct (get result "error") as [err|]; [|discriminate].
  destruct (truthy err).
  - injection H as <-. now right.
  - destruct (get result "candidates") as [c|]; [|discriminate].
    destruct (get c "0") as [c0|]; [|discriminate].
    destruct (get c0 "content") as [m|]; [|discriminate].
    destruct (parseAgentResponse m) as [p|]; [|discriminate].
    destruct (detect_widget (text p) m) as [wd m'].
    injection H as <-. now left.
Qed.

(** Every settled call appends one turn, of role [agent] or [error]. *)
Lemma settle_appends_one (st : AppState) (r : Reply) :
  exists t,
    handleSendMessage_settle st r
    = {| history := (history st ++ [t])%list; input := input st; isThinking := false |}
    /\ (role t = "agent" \/ role t = "error").
Proof.
  unfold handleSendMessage_settle.
  destruct (response_turn (callAgent_result r)) as [t|] eqn:E.
  - exists t. split; [reflexivity | exact (response_turn_role _ _ E)].
  - eexists. split; [reflexivity | now right].
Qed.

(** [handleSendMessage] leaves [history] alone before the [await]. *)
Lemma send_keeps_history (st : AppState) (userText toolName : option string)
    (toolArgs : value) :
  history (fst (handleSendMessage_send st userText toolName toolArgs)) = history st.
Proof.
  unfold handleSendMessage_send. destruct (isThinking st); [reflexivity|].
  cbn [fst]. destruct userText as [t|]; [|reflexivity].
  destruct (negb (t =? "") && negb (is_blank t)); reflexivity.
Qed.

(** A whole round trip, whatever was typed and whatever came back, adds
    one turn to the stored conversation, and never one of role [user]. *)
Lemma round_trip_appends_one (st : AppState) (userText toolName : option string)
    (toolArgs : value) (r : Reply) :
  exists t,
    history (handleSendMessage_settle
               (fst (handleSendMessage_send st userText toolName toolArgs)) r)
    = (history st ++ [t])%list
    /\ (role t = "agent" \/ role t = "error").
Proof.
  destruct (settle_appends_one
              (fst (handleSendMessage_send st userText toolName toolArgs)) r)
    as (t & E & Hrole).
  exists t. split; [|exact Hrole].
  rewrite E. cbn [history]. now rewrite send_keeps_history.
Qed.

Lemma step_history (sys : System) (ev : Event) :
  exists added, history (app (step sys ev)) = (history (app sys) ++ added)%list.
Proof.
  destruct ev as [u n a | r | s]; cbn [step].
  - exists []. rewrite app_nil_r.
    pose proof (send_keeps_history (app sys) u n a) as H.
    destruct (handleSendMessage_send (app sys) u n a) as [st posted]. exact H.
  - destruct (inflight sys) as [|p rest].
    + exists []. now rewrite app_nil_r.
    + destruct (settle_appends_one (app sys) r) as (t & E & _).
      exists [t]. cbn [app]. now rewrite E.
  - exists []. now rewrite app_nil_r.
Qed.

Lemma run_history (evs : list Event) (sys : System) :
  exists added, history (app (run evs sys)) = (history (app sys) ++ added)%list.
Proof.
  revert sys. induction evs as [|ev evs IH]; intros sys.
  - exists []. now rewrite app_nil_r.
  - destruct (IH (step sys ev)) as (a2 & E2).
    destruct (step_history sys ev) as (a1 & E1).
    exists (a1 ++ a2)%list. cbn [run fold_left].
    change (fold_left step evs (step sys ev)) with (run evs (step sys ev)).
    now rewrite E2, E1, app_assoc.
Qed.

(** What the page shows for a turn whose content is one text part: the
    empty string, whatever the text. [App] hands [ChatMessage] the content
    object, and [parseAgentResponse] looks in it for [content.parts]. *)
Lemma text_turn_shown_empty (t : string) (isAgent : bool) :
  ChatMessage (text_content t) isAgent false false = Some (TextBubble isAgent "" []).
Proof. reflexivity. Qed.

(** A reply of the documented shape is stored as it came, with no widget
    tag, whatever its text. *)
Lemma reply_text_untagged (st : AppState) (t : string) :
  handleSendMessage_settle st (Fulfilled (reply_text t))
  = {| history := (history st
                   ++ [ {| role := "agent"; content := text_content t;
                           widget := VUndefined; error := VUndefined |} ])%list;
       input := input st; isThinking := false |}.
Proof.
  unfold handleSendMessage_settle, reply_text. cbn [callAgent_result].
  unfold text_content. now rewrite documented_reply_untagged.
Qed.

(** C1 (code defect). A submission of text while idle does not make
    the stored conversation grow by a user turn and an agent turn. The
    user turn is pushed on [newHistory], the copy that is posted to the
    agent, and [newHistory] is never stored: each [setHistory] appends to
    the stored history as it was. After "hello" and a successful reply the
    stored conversation is the greeting and the agent turn: one turn more,
    and no turn of role [user]. The same holds from every state, for every
    submission and every reply: a round trip stores one turn, of role
    [agent] or [error]. *)
Theorem user_turn_not_stored :
  let sent := handleSendMessage_send initial_state (Some "hello") None (VObj []) in
  let final := run [submit "hello"; Settle (Fulfilled (reply_text "Hi there"))]
                   initial_system in
  option_map sent_history (snd sent) = Some [greeting; user_turn "hello"]
  /\ history (fst sent) = [greeting]
  /\ history (app final)
     = [greeting;
        {| role := "agent"; content := text_content "Hi there";
           widget := VUndefined; error := VUndefined |}]
  /\ List.length (history (app final)) = (List.length (history initial_state) + 1)%nat
  /\ existsb (fun t => role t =? "user") (history (app final)) = false
  /\ isThinking (app final) = false
  /\ (forall st userText toolName toolArgs r,
         history (handleSendMessage st userText toolName toolArgs r) = history st
         \/ exists t,
              history (handleSendMessage st userText toolName toolArgs r)
              = (history st ++ [t])%list
              /\ (role t = "agent" \/ role t = "error")).
Proof.
  cbv zeta. repeat (split; [reflexivity|]).
  intros st u n a r. unfold handleSendMessage.
  pose proof (round_trip_appends_one st u n a r) as H.
  pose proof (send_keeps_history st u n a) as K.
  destruct (handleSendMessage_send st u n a) as [st' [p|]]; [right; exact H | left; exact K].
Qed.

(** C3 (code defect). The reply carries, as the text of its one part,
    the payload [generateOfferWidget] produces for the offers of [home];
    that text parses, and the parsed payload has a [widget_data]. The
    turn appended for it has no widget tag, and what the page shows for it
    is the empty string: neither the confirmation nor the text. Both
    [handleSendMessage] and [ChatMessage] hand [parseAgentResponse] the
    content object, in which it looks for [content.parts] and finds
    nothing. So it is for every reply of the documented shape: no tag, and
    the empty string on the page, for a payload and for prose. *)
Theorem widget_reply_not_tagged :
  let final := app (run [submit "home"; Settle (Fulfilled (reply_text widget_text))]
                        initial_system) in
  parse widget_text = Some (VObj (Server.widget_success (Server.home Server.OFFERS)))
  /\ option_map (fun data => truthy (get_opt data "widget_data")) (parse widget_text)
     = Some true
  /\ history final
     = [greeting;
        {| role := "agent"; content := text_content widget_text;
           widget := VUndefined; error := VUndefined |}]
  /\ render_last final = Some (TextBubble true "" [])
  /\ render_last final <> Some (TextBubble true confirmation [])
  /\ (forall st t,
         handleSendMessage_settle st (Fulfilled (reply_text t))
         = {| history := (history st
                          ++ [ {| role := "agent"; content := text_content t;
                                  widget := VUndefined; error := VUndefined |} ])%list;
              input := input st; isThinking := false |})
  /\ (forall t isAgent,
         ChatMessage (text_content t) isAgent false false
         = Some (TextBubble isAgent "" [])).
Proof.
  cbv zeta. repeat (split; [vm_compute; reflexivity|]).
  split; [|split].
  - intros H. vm_compute in H. discriminate H.
  - exact reply_text_untagged.
  - exact text_turn_shown_empty.
Qed.

(** The message of the error turn is not fixed: a response whose [error]
    field is set hands over its own, and a rejected call the fallback. *)
Lemma error_message_not_fixed :
  ~ (exists fixed : value,
        forall st r,
          agent_call_failed r ->
          handleSendMessage_settle st r
          = {| history := (history st ++ [error_turn fixed])%list;
               input := input st; isThinking := false |}).
Proof.
  intros (fixed & H).
  assert (H1 : agent_call_failed Rejected) by (left; reflexivity).
  assert (H2 : agent_call_failed
                 (Fulfilled (VObj [ ("error", VStr "Rate limit exceeded") ]))).
  { right. eexists. eexists. repeat split. }
  pose proof (H initial_state _ H1) as E1.
  pose proof (H initial_state _ H2) as E2.
  vm_compute in E1. vm_compute in E2.
  injection E1 as E1. injection E2 as E2.
  rewrite <- E1 in E2. discriminate E2.
Qed.

(** A response that cannot be processed ends in the [catch], with its own
    fixed message; a response without [candidates] is one. *)
Lemma unprocessable_reply_appends_error_turn (st : AppState) (r : Reply) :
  response_turn (callAgent_result r) = None ->
  handleSendMessage_settle st r
  = {| history := (history st ++ [error_turn (VStr unexpected_failure)])%list;
       input := input st; isThinking := false |}.
Proof. intros H. unfold handleSendMessage_settle. now rewrite H. Qed.

Example reply_without_candidates :
  response_turn (callAgent_result (Fulfilled (VObj []))) = None.
Proof. reflexivity. Qed.

(** C8 (amended). The store starts with the greeting. After [N] appends
    the snapshot is the greeting followed by the [N] appended turns in the
    order of the appends, [N + 1] elements. Whatever the page does, the
    conversation it had is a prefix of the conversation it has. *)
Theorem conversation_append_only :
  (forall turns,
      snapshot (fold_left append_turn turns initial_state) = greeting :: turns
      /\ List.length (snapshot (fold_left append_turn turns initial_state))
         = S (List.length turns))
  /\ (forall sys ev,
         exists added, history (app (step sys ev)) = (history (app sys) ++ added)%list)
  /\ (forall sys evs,
         exists added, history (app (run evs sys)) = (history (app sys) ++ added)%list).
Proof.
  split; [|split].
  - assert (G : forall turns st,
               snapshot (fold_left append_turn turns st) = (history st ++ turns)%list).
    { induction turns as [|t ts IH]; intros st; cbn [fold_left].
      - unfold snapshot. now rewrite app_nil_r.
      - rewrite IH. unfold append_turn, setHistory. cbn [history].
        now rewrite <- app_assoc. }
    intros turns. rewrite G. split; reflexivity.
  - exact step_history.
  - intros sys evs. apply run_history.
Qed.

(** Before any append the snapshot already has one element, so the
    number of elements is not the number of appends. *)
Lemma snapshot_starts_with_greeting :
  snapshot (fold_left append_turn [] initial_state) = [greeting]
  /\ ~ (forall turns : list Turn,
          List.length (snapshot (fold_left append_turn turns initial_state))
          = List.length turns).
Proof.
  split; [reflexivity|].
  intros H. specialize (H []). discriminate H.
Qed.

End ClientFacts.

(** ** JSON text on the wire *)

Section WireFacts.

Import Str JS Wire.

Lemma stringify_arr (l : list value) :
  stringify (VArr l) = Some ("[" ++ items_text true l ++ "]").
Proof. reflexivity. Qed.

Lemma stringify_obj (l : list (string * value)) :
  stringify (VObj l) = Some ("{" ++ members_text true l ++ "}").
Proof. reflexivity. Qed.

Lemma tokens_arr (l : list value) :
  tokens (VArr l) = (TLBracket :: items_tokens true l ++ [TRBracket])%list.
Proof. reflexivity. Qed.

Lemma tokens_obj (l : list (string * value)) :
  tokens (VObj l) = (TLBrace :: members_tokens true l ++ [TRBrace])%list.
Proof. reflexivity. Qed.

(** An escaped character is read back as the character. *)
Lemma lex_escape_char (c : ascii) (u acc : string) (out : list token) :
  lex (escape_char c ++ u) (LString acc) out = lex u (LString (String c acc)) out.
Proof. destruct c as [[] [] [] [] [] [] [] []]; reflexivity. Qed.

Lemma rev_onto_twice (s a b : string) : rev_onto (rev_onto s a) b = rev_onto a (s ++ b).
Proof.
  revert a b. induction s as [|c s IH]; intros a b; simpl; [reflexivity|].
  now rewrite IH.
Qed.

Lemma string_rev_twice (s : string) : Str.rev (Str.rev s) = s.
Proof. unfold Str.rev. rewrite rev_onto_twice. simpl. apply append_nil_r. Qed.

Lemma lex_escape (s u acc : string) (out : list token) :
  lex (escape s ++ u) (LString acc) out = lex u (LString (rev_onto s acc)) out.
Proof.
  revert acc. induction s as [|c s IH]; intros acc; simpl; [reflexivity|].
  now rewrite append_assoc, lex_escape_char, IH.
Qed.

Lemma lex_quote (s rest : string) (out : list token) :
  lex (quote s ++ rest) LIdle out = lex rest LIdle (TScalar (VStr s) :: out).
Proof.
  unfold quote. rewrite !append_assoc. cbn [dq append lex]. 
  change (lex_step LIdle out "034") with (Some (LString EmptyString, out)).
  cbv iota beta. rewrite lex_escape. cbn [dq append lex].
  change (rev_onto s "") with (Str.rev s).
  assert (E : lex_step (LString (Str.rev s)) out "034"
              = Some (LIdle, TScalar (VStr (Str.rev (Str.rev s))) :: out)) by reflexivity.
  rewrite E, string_rev_twice. reflexivity.
Qed.

Lemma lex_word (acc : string) (t : token) (rest : string) (out : list token) :
  emit_word acc = Some t -> terminated rest ->
  lex rest (LWord acc) out = lex rest LIdle (t :: out).
Proof.
  intros He Ht. destruct rest as [|c r]; cbn [lex].
  - now rewrite He.
  - cbn in Ht. cbn [lex_step]. now rewrite Ht, He.
Qed.

Lemma plain_stringify (v : value) : plain v = true -> stringify v = Some (text_of v).
Proof. destruct v; intros H; try discriminate H; reflexivity. Qed.

Lemma terminated_items (r : list value) (rest : string) :
  terminated rest -> terminated (items_text false r ++ rest).
Proof. destruct r as [|x r]; intros H; [exact H | reflexivity]. Qed.

Lemma lex_items (l : list value) :
  Forall lexes l -> forallb plain l = true ->
  forall first rest out, terminated rest ->
    lex (items_text first l ++ rest) LIdle out
    = lex rest LIdle (List.rev (items_tokens first l) ++ out)%list.
Proof.
  induction 1 as [|x r Hx _ IH]; intros Hp first rest out Ht; [reflexivity|].
  cbn [forallb] in Hp. apply andb_prop in Hp as [Hpx Hpr].
  cbn [items_text items_tokens]. fold (text_of x).
  rewrite ?append_assoc, ?rev_app_distr, <- ?app_assoc.
  destruct first; cbn [append].
  - rewrite (Hx Hpx _ _ (terminated_items r rest Ht)).
    rewrite (IH Hpr false rest _ Ht). reflexivity.
  - cbn [lex]. change (lex_step LIdle out ",") with (Some (LIdle, TComma :: out)).
    cbv iota beta.
    rewrite (Hx Hpx _ _ (terminated_items r rest Ht)).
    rewrite (IH Hpr false rest _ Ht). reflexivity.
Qed.

Lemma terminated_members (r : list (string * value)) (rest : string) :
  forallb (fun kv => plain (snd kv)) r = true ->
  terminated rest -> terminated (members_text false r ++ rest).
Proof.
  destruct r as [|[k x] r]; intros Hp H; [exact H|].
  cbn [forallb snd] in Hp. apply andb_prop in Hp as [Hpx _].
  cbn [members_text]. rewrite (plain_stringify x Hpx). reflexivity.
Qed.

Lemma lex_members (l : list (string * value)) :
  Forall (fun kv => lexes (snd kv)) l ->
  forallb (fun kv => plain (snd kv)) l = true ->
  forall first rest out, terminated rest ->
    lex (members_text first l ++ rest) LIdle out
    = lex rest LIdle (List.rev (members_tokens first l) ++ out)%list.
Proof.
  induction 1 as [|[k x] r Hx _ IH]; intros Hp first rest out Ht; [reflexivity|].
  cbn [forallb snd] in Hp, Hx. apply andb_prop in Hp as [Hpx Hpr].
  cbn [members_text members_tokens]. rewrite (plain_stringify x Hpx).
  assert (Step : forall out',
             lex (quote k ++ ":" ++ text_of x ++ members_text false r ++ rest) LIdle out'
             = lex rest LIdle
                 (List.rev (members_tokens false r) ++ List.rev (tokens x)
                  ++ TColon :: TScalar (VStr k) :: out')%list).
  { intros out'. rewrite lex_quote. cbn [append lex].
    change (lex_step LIdle (TScalar (VStr k) :: out') ":")
      with (Some (LIdle, TColon :: TScalar (VStr k) :: out')).
    cbv iota beta.
    rewrite (Hx Hpx _ _ (terminated_members r rest Hpr Ht)).
    rewrite (IH Hpr false rest _ Ht). rewrite <- ?app_assoc. reflexivity. }
  destruct first; cbv iota; rewrite ?append_assoc.
  - change (lex (quote k ++ ":" ++ text_of x ++ members_text false r ++ rest) LIdle out
            = lex rest LIdle
                (List.rev (TScalar (VStr k) :: TColon :: tokens x ++ members_tokens false r)
                 ++ out)%list).
    rewrite Step. cbn [List.rev]. rewrite ?rev_app_distr. cbn [List.rev app].
    rewrite <- ?app_assoc. reflexivity.
  - change (lex (quote k ++ ":" ++ text_of x ++ members_text false r ++ rest) LIdle
                (TComma :: out)
            = lex rest LIdle
                (List.rev (TComma :: TScalar (VStr k) :: TColon
                             :: tokens x ++ members_tokens false r)
                 ++ out)%list).
    rewrite Step. cbn [List.rev]. rewrite ?rev_app_distr. cbn [List.rev app].
    rewrite <- ?app_assoc. reflexivity.
Qed.

Lemma lex_value (v : value) : lexes v.
Proof.
  induction v using value_induction; intros Hp rest out Ht; try discriminate Hp.
  - change (lex (text_of VNull ++ rest) LIdle out) with (lex rest (LWord "llun") out).
    now rewrite (lex_word "llun" (TScalar VNull) rest out eq_refl Ht).
  - destruct b.
    + change (lex (text_of (VBool true) ++ rest) LIdle out) with (lex rest (LWord "eurt") out).
      now rewrite (lex_word "eurt" (TScalar (VBool true)) rest out eq_refl Ht).
    + change (lex (text_of (VBool false) ++ rest) LIdle out)
        with (lex rest (LWord "eslaf") out).
      now rewrite (lex_word "eslaf" (TScalar (VBool false)) rest out eq_refl Ht).
  - change (text_of (VStr s)) with (quote s). now rewrite lex_quote.
  - cbn [plain] in Hp.
    change (text_of (VArr l)) with ("[" ++ items_text true l ++ "]").
    rewrite tokens_arr. rewrite !append_assoc. cbn [append lex].
    change (lex_step LIdle out "[") with (Some (LIdle, TLBracket :: out)).
    cbv iota beta.
    rewrite (lex_items l H Hp true ("]" ++ rest) _ eq_refl).
    cbn [append lex List.rev]. rewrite !rev_app_distr. cbn [List.rev app].
    rewrite <- !app_assoc. reflexivity.
  - cbn [plain] in Hp. apply andb_prop in Hp as [_ Hp].
    change (text_of (VObj props)) with ("{" ++ members_text true props ++ "}").
    rewrite tokens_obj. rewrite !append_assoc. cbn [append lex].
    change (lex_step LIdle out "{") with (Some (LIdle, TLBrace :: out)).
    cbv iota beta.
    rewrite (lex_members props H Hp true ("}" ++ rest) _ eq_refl).
    cbn [append lex List.rev]. rewrite !rev_app_distr. cbn [List.rev app].
    rewrite <- !app_assoc. reflexivity.
Qed.

Lemma parse_items (l : list value) :
  Forall parses l -> forallb plain l = true ->
  forall (first : bool) acc ts stk res,
    parse_tokens (items_tokens first l ++ TRBracket :: ts)
      (Parser (FArr acc :: stk) (if first then EValueOrClose else ECommaOrClose) res)
    = match deliver (VArr (List.rev acc ++ l)) stk with
      | Some p => parse_tokens ts p
      | None => None
      end.
Proof.
  induction 1 as [|x r Hx _ IH]; intros Hp first acc ts stk res.
  - rewrite app_nil_r. destruct first; reflexivity.
  - cbn [forallb] in Hp. apply andb_prop in Hp as [Hpx Hpr].
    assert (Step : forall e res', wants_value e = true ->
               parse_tokens (tokens x ++ items_tokens false r ++ TRBracket :: ts)
                 (Parser (FArr acc :: stk) e res')
               = match deliver (VArr (List.rev acc ++ x :: r)) stk with
                 | Some p => parse_tokens ts p
                 | None => None
                 end).
    { intros e res' He. rewrite (Hx Hpx _ _ _ _ He). cbn [deliver].
      rewrite (IH Hpr false). cbn [List.rev]. now rewrite <- app_assoc. }
    cbn [items_tokens]. rewrite <- !app_assoc.
    destruct first; cbn [app].
    + now apply Step.
    + cbn [parse_tokens parse_step expecting stack]. now apply Step.
Qed.

Lemma fresh_key (done : list (string * value)) (k : string) (x : value)
    (r : list (string * value)) :
  distinct_keys (done ++ (k, x) :: r) = true ->
  existsb (fun kv => k =? fst kv) done = false.
Proof.
  induction done as [|[k' y] done IH]; cbn [app distinct_keys existsb fst]; intros H;
    [reflexivity|].
  apply andb_prop in H as [Hk Hd]. rewrite (IH Hd), orb_false_r.
  rewrite existsb_app in Hk. cbn [existsb fst] in Hk.
  rewrite String.eqb_sym.
  destruct (k' =? k); [|reflexivity].
  now rewrite orb_true_r in Hk.
Qed.

Lemma set_prop_fresh (done : list (string * value)) (k : string) (x : value) :
  existsb (fun kv => k =? fst kv) done = false ->
  set_prop done k x = (done ++ [(k, x)])%list.
Proof.
  induction done as [|[k' y] done IH]; cbn [existsb fst set_prop app]; intros H;
    [reflexivity|].
  apply orb_false_elim in H as [Hk Hd]. rewrite Hk. now rewrite (IH Hd).
Qed.

Lemma parse_members (l : list (string * value)) :
  Forall (fun kv => parses (snd kv)) l ->
  forallb (fun kv => plain (snd kv)) l = true ->
  forall (first : bool) done ts stk res,
    distinct_keys (done ++ l) = true ->
    parse_tokens (members_tokens first l ++ TRBrace :: ts)
      (Parser (FObj done None :: stk) (if first then EKeyOrClose else ECommaOrClose) res)
    = match deliver (VObj (done ++ l)) stk with
      | Some p => parse_tokens ts p
      | None => None
      end.
Proof.
  induction 1 as [|[k x] r Hx _ IH]; intros Hp first done ts stk res Hd.
  - rewrite app_nil_r. destruct first; reflexivity.
  - cbn [forallb snd] in Hp, Hx. apply andb_prop in Hp as [Hpx Hpr].
    assert (Step : forall res',
               parse_tokens (tokens x ++ members_tokens false r ++ TRBrace :: ts)
                 (Parser (FObj done (Some k) :: stk) EValue res')
               = match deliver (VObj (done ++ (k, x) :: r)) stk with
                 | Some p => parse_tokens ts p
                 | None => None
                 end).
    { intros res'. rewrite (Hx Hpx _ _ EValue _ eq_refl). cbn [deliver].
      rewrite (set_prop_fresh done k x (fresh_key done k x r Hd)).
      assert (Hd' : distinct_keys ((done ++ [(k, x)]) ++ r) = true)
        by now rewrite <- app_assoc.
      rewrite (IH Hpr false _ ts stk None Hd'). now rewrite <- app_assoc. }
    cbn [members_tokens]. rewrite <- !app_assoc.
    destruct first; cbn [app parse_tokens parse_step expecting stack wants_value];
      rewrite <- ?app_assoc; now apply Step.
Qed.

Lemma parse_value (v : value) : parses v.
Proof.
  induction v using value_induction; intros Hp ts stk e res He; try discriminate Hp.
  - cbn [tokens app parse_tokens parse_step expecting stack]. now rewrite He.
  - cbn [tokens app parse_tokens parse_step expecting stack]. now rewrite He.
  - cbn [tokens app parse_tokens parse_step expecting stack]. now rewrite He.
  - cbn [plain] in Hp. rewrite tokens_arr.
    cbn [app parse_tokens parse_step expecting stack]. rewrite He.
    rewrite <- app_assoc. cbn [app].
    now rewrite (parse_items l H Hp true [] ts stk None).
  - cbn [plain] in Hp. apply andb_prop in Hp as [Hd Hp]. rewrite tokens_obj.
    cbn [app parse_tokens parse_step expecting stack]. rewrite He.
    rewrite <- app_assoc. cbn [app].
    now rewrite (parse_members props H Hp true [] ts stk None Hd).
Qed.

(** What [JSON.stringify] writes for a value with no number, nothing
    dropped and no key twice, [JSON.parse] reads back as that value. *)
Lemma parse_stringify (v : value) :
  plain v = true -> stringify v = Some (text_of v) /\ parse (text_of v) = Some v.
Proof.
  intros Hp. split; [now apply plain_stringify|].
  unfold parse.
  rewrite <- (append_nil_r (text_of v)).
  rewrite (lex_value v Hp "" [] I). cbn [lex]. rewrite app_nil_r, List.rev_involutive.
  rewrite <- (app_nil_r (tokens v)).
  now rewrite (parse_value v Hp [] [] EValue None eq_refl).
Qed.

Lemma received_plain (v : value) : plain v = true -> received (text_of v) = v.
Proof. intros H. unfold received. now rewrite (proj2 (parse_stringify v H)). Qed.

Lemma plain_strings (l : list string) : forallb plain (map VStr l) = true.
Proof. induction l as [|s l IH]; [reflexivity | exact IH]. Qed.

End WireFacts.

(** ** More on the tool server *)

Section ServerMore.

Import Str JS Server Wire Calls.

Lemma lower_char_idempotent (c : ascii) : lower_char (lower_char c) = lower_char c.
Proof. destruct c as [[] [] [] [] [] [] [] []]; reflexivity. Qed.

Lemma toLowerCase_idempotent (s : string) : toLowerCase (toLowerCase s) = toLowerCase s.
Proof.
  induction s as [|c s IH]; simpl; [reflexivity|].
  now rewrite lower_char_idempotent, IH.
Qed.





(** *** Texts within texts *)

Lemma includes_here3 (a b c post : string) : includes (a ++ b ++ c ++ post) (a ++ b ++ c).
Proof. exists "", post. now rewrite !append_assoc. Qed.

Lemma includes_trans (s t u : string) : includes s t -> includes t u -> includes s u.
Proof.
  intros (p1 & q1 & E1) (p2 & q2 & E2). exists (p1 ++ p2), (q2 ++ q1).
  now rewrite E1, E2, !append_assoc.
Qed.

(** *** Sequences of calls *)

Lemma handle_effect (c : ToolCall) (w : World) :
  uuids (snd (handle c w)) = uuids w
  /\ drawn (snd (handle c w)) = (drawn w + (if makes_link c then 1 else 0))%nat
  /\ List.length (console (snd (handle c w)))
     = (List.length (console w) + (if writes_log c then 1 else 0))%nat.
Proof.
  destruct c as [input | [[[|ch s]|]] | [[[|o os]|]]];
    cbn; rewrite ?length_app; cbn; repeat split; lia.
Qed.

Lemma handle_all_cons (c : ToolCall) (cs : list ToolCall) (w : World) :
  handle_all (c :: cs) w
  = (fst (handle c w) :: fst (handle_all cs (snd (handle c w))),
     snd (handle_all cs (snd (handle c w)))).
Proof.
  cbn [handle_all]. unfold bind, ret.
  destruct (handle c w) as [e w1]. cbn [fst snd].
  now destruct (handle_all cs w1) as [es w2].
Qed.

Lemma handle_all_effect (cs : list ToolCall) (w : World) :
  List.length (fst (handle_all cs w)) = List.length cs
  /\ uuids (snd (handle_all cs w)) = uuids w
  /\ drawn (snd (handle_all cs w)) = (drawn w + count makes_link cs)%nat
  /\ List.length (console (snd (handle_all cs w)))
     = (List.length (console w) + count writes_log cs)%nat.
Proof.
  revert w. induction cs as [|c cs IH]; intros w.
  - cbn. repeat split; lia.
  - rewrite handle_all_cons. cbn [fst snd List.length].
    destruct (IH (snd (handle c w))) as (Hl & Hu & Hd & Hc).
    destruct (handle_effect c w) as (Hu1 & Hd1 & Hc1).
    unfold count in *. cbn [filter].
    rewrite Hl, Hu, Hd, Hc, Hu1, Hd1, Hc1.
    destruct (makes_link c), (writes_log c); cbn [List.length]; repeat split; lia.
Qed.

(** Over any sequence of calls: one envelope per call, one UUID drawn per
    link made and none otherwise, one line logged per [getOffers] and per
    link made, and the source of UUIDs untouched. *)
Theorem calls_leave_their_count (cs : list ToolCall) (w : World) :
  List.length (fst (handle_all cs w)) = List.length cs
  /\ uuids (snd (handle_all cs w)) = uuids w
  /\ drawn (snd (handle_all cs w)) = (drawn w + count makes_link cs)%nat
  /\ List.length (console (snd (handle_all cs w)))
     = (List.length (console w) + count writes_log cs)%nat.
Proof.
  destruct (handle_all_effect cs w) as (Hl & Hu & Hd & Hc).
  repeat split; assumption.
Qed.

End ServerMore.

(** ** More on the chat page *)

Section ClientMore.

Import Str JS Client Page Wire.

(** *** parseAgentResponse *)

Lemma parse_message_of (parts : list value) :
  parseAgentResponse (message_of parts)
  = visit_parts {| toolCalls := []; text := ""; groundingSources := [] |} parts.
Proof. reflexivity. Qed.

Lemma visit_parts_app (acc : Parsed) (l1 l2 : list value) :
  visit_parts acc (l1 ++ l2)
  = match visit_parts acc l1 with
    | Some acc' => visit_parts acc' l2
    | None => None
    end.
Proof.
  revert acc. induction l1 as [|p l1 IH]; intros acc; cbn [List.app visit_parts]; [reflexivity|].
  destruct (visit_part acc p) as [acc'|]; [apply IH | reflexivity].
Qed.

Lemma visit_typed_parts (ps : list Part) (acc : Parsed) :
  visit_parts acc (map part_value ps)
  = Some {| toolCalls := (toolCalls acc ++ calls ps)%list;
            text := text acc ++ texts ps;
            groundingSources := groundingSources acc |}.
Proof.
  revert acc. induction ps as [|[t|c] ps IH]; intros [tc tx gs]; cbn [map visit_parts].
  - cbn. now rewrite app_nil_r, append_nil_r.
  - destruct t as [|ch t].
    + change (visit_part {| toolCalls := tc; text := tx; groundingSources := gs |}
                (part_value (TextPart "")))
        with (Some {| toolCalls := tc; text := tx; groundingSources := gs |}).
      cbv beta iota. rewrite IH. reflexivity.
    + change (visit_part {| toolCalls := tc; text := tx; groundingSources := gs |}
                (part_value (TextPart (String ch t))))
        with (Some {| toolCalls := tc; text := tx ++ String ch t; groundingSources := gs |}).
      cbv beta iota. rewrite IH. cbn [toolCalls text groundingSources calls texts].
      now rewrite append_assoc.
  - cbn [calls texts]. destruct (truthy c) eqn:Hc.
    + assert (E : visit_part {| toolCalls := tc; text := tx; groundingSources := gs |}
                    (part_value (CallPart c))
                  = Some {| toolCalls := (tc ++ [c])%list; text := tx;
                            groundingSources := gs |}).
      { unfold visit_part. cbn. now rewrite Hc. }
      rewrite E. cbv beta iota. rewrite IH. cbn [toolCalls text groundingSources].
      now rewrite <- app_assoc.
    + assert (E : visit_part {| toolCalls := tc; text := tx; groundingSources := gs |}
                    (part_value (CallPart c))
                  = Some {| toolCalls := tc; text := tx; groundingSources := gs |}).
      { unfold visit_part. cbn. now rewrite Hc. }
      rewrite E. cbv beta iota. rewrite IH. reflexivity.
Qed.

(** From a message made of text parts and call parts, [parseAgentResponse]
    takes the texts, joined in the order of the parts, and the calls that
    are set, in the order of the parts. *)
Theorem parts_are_read_in_order (ps : list Part) :
  parseAgentResponse (message_of (map part_value ps))
  = Some {| toolCalls := calls ps; text := texts ps; groundingSources := [] |}.
Proof. rewrite parse_message_of, visit_typed_parts. reflexivity. Qed.

(** A message that is no object, or an object with no [content] of its
    own, is read as nothing, and reading it does not throw. *)
Theorem message_without_content_is_empty (m : value) :
  match m with
  | VObj props => assoc "content" props = None
  | _ => True
  end ->
  parseAgentResponse m = Some {| toolCalls := []; text := ""; groundingSources := [] |}.
Proof.
  destruct m; intros H; try reflexivity.
  now apply parseAgentResponse_no_content.
Qed.

Lemma message_without_content_is_empty_witness :
  parseAgentResponse VUndefined
  = Some {| toolCalls := []; text := ""; groundingSources := [] |}
  /\ parseAgentResponse (text_content "Hello")
     = Some {| toolCalls := []; text := ""; groundingSources := [] |}.
Proof.
  split.
  - apply (message_without_content_is_empty VUndefined). exact I.
  - apply (message_without_content_is_empty (text_content "Hello")). reflexivity.
Defined.

(** A part that is [null] or [undefined] makes [parseAgentResponse] throw,
    wherever it stands among the parts. *)
Theorem null_part_throws (before after : list value) (part : value) :
  part = VNull \/ part = VUndefined ->
  parseAgentResponse (message_of (before ++ part :: after)) = None.
Proof.
  intros H. rewrite parse_message_of, visit_parts_app.
  destruct (visit_parts _ before) as [acc|]; [|reflexivity].
  destruct H as [-> | ->]; reflexivity.
Qed.

Lemma null_part_throws_witness :
  parseAgentResponse
    (message_of [ VObj [ ("text", VStr "a") ]; VNull; VObj [ ("text", VStr "b") ] ])
  = None.
Proof.
  apply (null_part_throws [ VObj [ ("text", VStr "a") ] ] [ VObj [ ("text", VStr "b") ] ] VNull).
  left. reflexivity.
Defined.

(** *** handleSendMessage *)

Lemma send_posts (st : AppState) (userText toolName : option string)
    (toolArgs : value) (p : AgentPayload) :
  snd (handleSendMessage_send st userText toolName toolArgs) = Some p ->
  isThinking st = false
  /\ agentId p = AGENT_ID
  /\ toolOutputs p = []
  /\ exists added,
       sent_history p = (history st ++ added)%list
       /\ (List.length added <= 2)%nat
       /\ Forall (fun t => role t = "user") added.
Proof.
  unfold handleSendMessage_send. destruct (isThinking st); [discriminate|].
  cbn [snd]. intros H. injection H as <-. cbn [agentId toolOutputs sent_history callAgent_payload].
  repeat split.
  destruct userText as [t|];
    [destruct (negb (t =? "") && negb (is_blank t))|];
    destruct toolName as [[|c s]|];
    first [ exists (@nil Turn); rewrite app_nil_r;
            split; [reflexivity | split; [cbn; lia | constructor]]
          | eexists [_]; split; [reflexivity | split; [cbn; lia | repeat constructor]]
          | eexists [_; _]; split;
            [rewrite <- app_assoc; reflexivity | split; [cbn; lia | repeat constructor]] ].
Qed.







(** *** The controls *)

Lemma not_blank_not_empty (s : string) : is_blank s = false -> (s =? "") = false.
Proof. destruct s; [discriminate | reflexivity]. Qed.

(** Enter and the Send button do the same thing, other keys nothing. With
    a blank text box or a call out they do nothing at all; otherwise they
    post the stored history followed by one user turn with the text,
    empty the text box and set [isThinking]. The text box cannot be edited
    while a call is out. *)
Theorem send_controls (sys : System) :
  act sys (PressKey "Enter") = act sys ClickSend
  /\ (forall key, key <> "Enter" -> act sys (PressKey key) = sys)
  /\ (is_blank (input (app sys)) = true \/ isThinking (app sys) = true ->
      act sys ClickSend = sys)
  /\ (is_blank (input (app sys)) = false -> isThinking (app sys) = false ->
      act sys ClickSend
      = {| app := {| history := history (app sys); input := ""; isThinking := true |};
           inflight :=
             (inflight sys
              ++ [ callAgent_payload
                     (history (app sys) ++ [user_turn (input (app sys))]) ])%list |})
  /\ (isThinking (app sys) = true -> forall s, act sys (ChangeInput s) = sys).
Proof.
  split; [|split; [|split; [|split]]].
  - unfold act. cbn [String.eqb Ascii.eqb Bool.eqb andb].
    destruct (is_blank (input (app sys))), (isThinking (app sys)); reflexivity.
  - intros key Hk. unfold act.
    destruct (String.eqb_spec key "Enter") as [E|_]; [contradiction | reflexivity].
  - intros [H | H]; unfold act; rewrite H; [reflexivity | now rewrite orb_true_r].
  - intros Hb Hidle. unfold act. rewrite Hb, Hidle. cbn [orb].
    unfold step, submit, handleSendMessage_send.
    rewrite Hidle, Hb, (not_blank_not_empty _ Hb). reflexivity.
  - intros H s. unfold act. now rewrite H.
Qed.

Lemma send_controls_witness :
  let sys := step initial_system (Type_ "hello") in
  is_blank (input (app sys)) = false /\ isThinking (app sys) = false
  /\ act sys ClickSend
     = {| app := {| history := [greeting]; input := ""; isThinking := true |};
          inflight := [ callAgent_payload [greeting; user_turn "hello"] ] |}.
Proof.
  split; [reflexivity|]. split; [reflexivity|].
  apply (proj1 (proj2 (proj2 (proj2 (send_controls
           (step initial_system (Type_ "hello"))))))); reflexivity.
Defined.

(** *** What the page shows *)

Lemma assoc_set_prop_other (props : list (string * value)) (k k' : string) (v : value) :
  k <> k' -> assoc k (set_prop props k' v) = assoc k props.
Proof.
  intros Hk. induction props as [|[k0 y] props IH]; cbn [set_prop assoc].
  - destruct (String.eqb_spec k k'); [contradiction | reflexivity].
  - destruct (String.eqb_spec k' k0) as [->|Hne]; cbn [assoc].
    + destruct (String.eqb_spec k k0); [contradiction | reflexivity].
    + now rewrite IH.
Qed.

Lemma get_set_prop_other (props : list (string * value)) (k k' : string) (v : value) :
  k <> k' -> get (VObj (set_prop props k' v)) k = get (VObj props) k.
Proof. intros Hk. cbn [get]. now rewrite assoc_set_prop_other. Qed.

(** The text [handleSendMessage] writes over a widget reply is not on the
    page: [ChatMessage] shows a content with its [text] property written
    exactly as it shows the content without. *)
Theorem text_override_is_not_shown (props : list (string * value)) (v : value)
    (isAgent isError showLoading : bool) :
  ChatMessage (VObj (set_prop props "text" v)) isAgent isError showLoading
  = ChatMessage (VObj props) isAgent isError showLoading.
Proof.
  unfold ChatMessage, parseAgentResponse, get_opt.
  rewrite !(get_set_prop_other props _ "text" v) by discriminate.
  reflexivity.
Qed.

Lemma render_last_appended (st : AppState) (t : Turn) :
  render_last (setIsThinking false (append_turn st t))
  = ChatMessage (content t) (role t =? "agent") (role t =? "error") false.
Proof.
  unfold render_last, render_turn. cbn [setIsThinking append_turn setHistory history isThinking].
  rewrite rev_app_distr. cbn [List.rev List.app]. now rewrite andb_false_r.
Qed.

Lemma failed_response_turn (r : Reply) :
  agent_call_failed r -> exists e, response_turn (callAgent_result r) = Some (error_turn e).
Proof.
  intros [-> | (data & e & -> & Hget & Htruthy)].
  - eexists. reflexivity.
  - exists e. unfold response_turn. cbn [callAgent_result]. now rewrite Hget, Htruthy.
Qed.

(** The page cannot show an error turn. [App] hands [ChatMessage] the
    content of the turn, an error turn has none, and [ChatMessage] reads
    [toolCalls] of it: after a failed call, and after a response that
    could not be processed, rendering the last turn throws. *)
Theorem error_turn_breaks_render (st : AppState) (r : Reply) :
  agent_call_failed r \/ response_turn (callAgent_result r) = None ->
  render_last (handleSendMessage_settle st r) = None.
Proof.
  intros H. unfold handleSendMessage_settle.
  assert (E : exists e,
             match response_turn (callAgent_result r) with
             | Some t => t
             | None => error_turn (VStr unexpected_failure)
             end = error_turn e).
  { destruct H as [H | H].
    - destruct (failed_response_turn r H) as (e & E). exists e. now rewrite E.
    - rewrite H. now eexists. }
  destruct E as (e & E). rewrite E, render_last_appended. reflexivity.
Qed.

Lemma error_turn_breaks_render_witness :
  agent_call_failed Rejected
  /\ render_last (handleSendMessage_settle (awaiting initial_state) Rejected) = None.
Proof.
  assert (H : agent_call_failed Rejected) by (left; reflexivity).
  split; [exact H|].
  apply (error_turn_breaks_render (awaiting initial_state) Rejected). left. exact H.
Defined.

(** A response that is [null] or [undefined], or that has neither an
    [error] that is set nor a first candidate, ends in the [catch]: the
    turn stored is the error turn with the fixed message for a failure in
    communication. The empty body of a response is such a response. *)
Theorem response_without_candidate (st : AppState) (data : value) :
  (data = VUndefined \/ data = VNull
   \/ exists e c,
        get data "error" = Some e /\ truthy e = false
        /\ get data "candidates" = Some c
        /\ (c = VUndefined \/ c = VNull \/ c = VArr [])) ->
  handleSendMessage_settle st (Fulfilled data)
  = setIsThinking false (append_turn st (error_turn (VStr unexpected_failure))).
Proof.
  intros H.
  assert (E : response_turn (callAgent_result (Fulfilled data)) = None).
  { cbn [callAgent_result]. unfold response_turn.
    destruct H as [-> | [-> | (e & c & He & Hf & Hc & Hshape)]]; try reflexivity.
    rewrite He, Hf, Hc. destruct Hshape as [-> | [-> | ->]]; reflexivity. }
  unfold handleSendMessage_settle. now rewrite E.
Qed.

Lemma response_without_candidate_witness :
  handleSendMessage_settle (awaiting initial_state) (Fulfilled (VStr ""))
  = {| history := [greeting; error_turn (VStr unexpected_failure)];
       input := ""; isThinking := false |}.
Proof.
  apply (response_without_candidate (awaiting initial_state) (VStr "")).
  right. right. exists VUndefined, VUndefined. repeat split. left. reflexivity.
Defined.

(** A first candidate with no [content] is not an error for
    [handleSendMessage]: it stores an agent turn whose content is
    [undefined], and the page cannot render that turn. *)
Theorem candidate_without_content (st : AppState) (props : list (string * value))
    (others : list value) :
  assoc "content" props = None ->
  handleSendMessage_settle st
    (Fulfilled (VObj [ ("candidates", VArr (VObj props :: others)) ]))
  = setIsThinking false
      (append_turn st {| role := "agent"; content := VUndefined;
                         widget := VUndefined; error := VUndefined |})
  /\ render_last
       (handleSendMessage_settle st
          (Fulfilled (VObj [ ("candidates", VArr (VObj props :: others)) ])))
     = None.
Proof.
  intros H.
  assert (E : handleSendMessage_settle st
                (Fulfilled (VObj [ ("candidates", VArr (VObj props :: others)) ]))
              = setIsThinking false
                  (append_turn st {| role := "agent"; content := VUndefined;
                                     widget := VUndefined; error := VUndefined |})).
  { unfold handleSendMessage_settle, response_turn.
    cbn [callAgent_result get assoc String.eqb Ascii.eqb Bool.eqb object_prototype
         truthy array_index nth].
    rewrite H. reflexivity. }
  split; [exact E|]. rewrite E, render_last_appended. reflexivity.
Qed.

Lemma candidate_without_content_witness :
  assoc "content" [ ("finishReason", VStr "SAFETY") ] = None
  /\ render_last
       (handleSendMessage_settle (awaiting initial_state)
          (Fulfilled
             (VObj [ ("candidates",
                      VArr [ VObj [ ("finishReason", VStr "SAFETY") ] ]) ])))
     = None.
Proof.
  split; [reflexivity|].
  apply (candidate_without_content (awaiting initial_state)
           [ ("finishReason", VStr "SAFETY") ] []).
  reflexivity.
Defined.

End ClientMore.

(** ** Server and page together *)

Section Together.

Import Str JS Wire.




End Together.

(** ** The completion page *)

Section ChatApiFacts.

Import Str JS Wire ChatApi.

(** Every answer of the handler. A request that is not a POST gets 405
    with no body and nothing is asked of the completion API. A POST gets
    200 with the completion as [reply] when the API answered and the
    answer has [choices[0].message.content] to read, and 500 with the one
    fixed reply in every other case, whatever went wrong. *)
Theorem handler_answers (api_key : option string) (req : Request) (r : Client.Reply)
    (a : Answer) :
  handler api_key req r = Some a ->
  (method req <> "POST" /\ a = {| status := 405; sent := None |})
  \/ (method req = "POST"
      /\ exists data reply,
           r = Client.Fulfilled data /\ completion data = Some reply
           /\ a = {| status := 200; sent := Some (VObj [ ("reply", reply) ]) |})
  \/ (method req = "POST"
      /\ (r = Client.Rejected
          \/ exists data, r = Client.Fulfilled data /\ completion data = None)
      /\ a = {| status := 500;
                sent := Some (VObj [ ("reply", VStr "Error from OpenAI API") ]) |}).
Proof.
  unfold handler, handler_start.
  destruct (String.eqb_spec (method req) "POST") as [Hm|Hm]; cbn [negb].
  - destruct (get (body req) "message") as [message|]; [|discriminate].
    intros H. injection H as <-. right.
    destruct r as [data|]; cbn [handler_finish].
    + destruct (completion data) as [reply|] eqn:E.
      * left. split; [exact Hm|]. now exists data, reply.
      * right. split; [exact Hm|]. split; [|reflexivity]. right. now exists data.
    + right. split; [exact Hm|]. split; [now left | reflexivity].
  - intros H. injection H as <-. left. now split.
Qed.

Lemma handler_answers_witness :
  let req := {| method := "POST"; body := VObj [ ("message", VStr "hi") ] |} in
  let a := {| status := 500; sent := Some (VObj [ ("reply", VStr "Error from OpenAI API") ]) |} in
  handler (Some "k") req Client.Rejected = Some a
  /\ ((method req <> "POST" /\ a = {| status := 405; sent := None |})
      \/ (method req = "POST"
          /\ exists data reply,
               Client.Rejected = Client.Fulfilled data /\ completion data = Some reply
               /\ a = {| status := 200; sent := Some (VObj [ ("reply", reply) ]) |})
      \/ (method req = "POST"
          /\ (Client.Rejected = Client.Rejected
              \/ exists data, Client.Rejected = Client.Fulfilled data /\ completion data = None)
          /\ a = {| status := 500;
                    sent := Some (VObj [ ("reply", VStr "Error from OpenAI API") ]) |})).
Proof.
  intros req a. split; [reflexivity|].
  apply (handler_answers (Some "k") req Client.Rejected a). reflexivity.
Defined.

(** A POST whose body is [undefined] or [null] makes the handler throw
    before its [try]: no answer is sent, not even the 500. Any other body
    reaches the completion API as one message of role [user]. *)
Theorem handler_needs_a_body (api_key : option string) (req : Request) (r : Client.Reply) :
  method req = "POST" ->
  (handler api_key req r = None <-> body req = VUndefined \/ body req = VNull)
  /\ (forall message,
         get (body req) "message" = Some message ->
         handler_start api_key req
         = Posted COMPLETIONS
             (VObj [ ("model", VStr "gpt-4o-mini");
                     ("messages",
                      VArr [ VObj [ ("role", VStr "user"); ("content", message) ] ]) ])
             ("Bearer " ++ match api_key with Some k => k | None => "undefined" end)).
Proof.
  intros Hm. unfold handler, handler_start. rewrite Hm. cbn [String.eqb Ascii.eqb Bool.eqb negb].
  split.
  - split.
    + destruct (body req); cbn; intros H; try discriminate H; auto.
    + intros [-> | ->]; reflexivity.
  - intros message ->. reflexivity.
Qed.

Lemma handler_needs_a_body_witness :
  handler (Some "k") {| method := "POST"; body := VUndefined |} Client.Rejected = None.
Proof.
  apply (proj1 (handler_needs_a_body (Some "k") {| method := "POST"; body := VUndefined |}
                  Client.Rejected eq_refl)).
  left. reflexivity.
Defined.

(** The page and the route together. What [Home] posts arrives as a POST
    whose message is the text of the box, and goes to the completion API
    as the one user message. A completion that is a string ends as the
    response on the page. When the route answers 500 the post is rejected
    and [handleSubmit], which has no [catch], throws: the response on the
    page stays what it was and the reply of the 500 is never shown. A
    completion with no content ends as an [undefined] response. *)
Theorem home_and_route (api_key : option string) (st : HomeState) :
  request_of (handleSubmit_post st)
  = {| method := "POST"; body := VObj [ ("message", VStr (message st)) ] |}
  /\ handler_start api_key (request_of (handleSubmit_post st))
     = Posted COMPLETIONS
         (VObj [ ("model", VStr "gpt-4o-mini");
                 ("messages",
                  VArr [ VObj [ ("role", VStr "user");
                                ("content", VStr (message st)) ] ]) ])
         ("Bearer " ++ match api_key with Some k => k | None => "undefined" end)
  /\ (forall data c,
         completion data = Some (VStr c) ->
         handleSubmit_settle st (axios_outcome (handler_finish (Client.Fulfilled data)))
         = Some {| message := message st; response := VStr c |})
  /\ (forall upstream,
         status (handler_finish upstream) = 500%nat ->
         handleSubmit_settle st (axios_outcome (handler_finish upstream)) = None)
  /\ (forall data,
         completion data = Some VUndefined ->
         handleSubmit_settle st (axios_outcome (handler_finish (Client.Fulfilled data)))
         = Some {| message := message st; response := VUndefined |}).
Proof.
  assert (R : request_of (handleSubmit_post st)
              = {| method := "POST"; body := VObj [ ("message", VStr (message st)) ] |}).
  { unfold request_of, handleSubmit_post. now rewrite received_plain. }
  split; [exact R|]. split; [now rewrite R|]. split; [|split].
  - intros data c H. cbn [handler_finish]. rewrite H.
    unfold axios_outcome. cbn [status sent Nat.leb Nat.ltb andb].
    change ((200 <=? 200)%nat && (200 <? 300)%nat) with true. cbv iota.
    rewrite (received_plain (VObj [ ("reply", VStr c) ]) eq_refl). reflexivity.
  - intros upstream H. unfold axios_outcome. rewrite H. reflexivity.
  - intros data H. cbn [handler_finish]. rewrite H. reflexivity.
Qed.

Lemma home_and_route_witness :
  completion
    (VObj [ ("choices",
             VArr [ VObj [ ("message", VObj [ ("content", VStr "Hi") ]) ] ]) ])
  = Some (VStr "Hi")
  /\ handleSubmit_settle {| message := "hello"; response := VStr "" |}
       (axios_outcome
          (handler_finish
             (Client.Fulfilled
                (VObj [ ("choices",
                         VArr [ VObj [ ("message", VObj [ ("content", VStr "Hi") ]) ] ]) ]))))
     = Some {| message := "hello"; response := VStr "Hi" |}
  /\ handleSubmit_settle {| message := "hello"; response := VStr "" |}
       (axios_outcome (handler_finish Client.Rejected))
     = None.
Proof.
  split; [reflexivity|]. split.
  - apply (proj1 (proj2 (proj2 (home_and_route None
             {| message := "hello"; response := VStr "" |})))).
    reflexivity.
  - apply (proj1 (proj2 (proj2 (proj2 (home_and_route None
             {| message := "hello"; response := VStr "" |}))))).
    reflexivity.
Defined.

End ChatApiFacts.

(** ** Grounding sources *)

Section GroundingFacts.

Import Str JS Client Page.

Lemma map_attributions_sources (sources : list (value * value)) :
  map_attributions (map attribution_value sources) = Some (map source_value sources).
Proof.
  induction sources as [|[u t] sources IH]; [reflexivity|].
  cbn [map map_attributions]. rewrite IH. reflexivity.
Qed.

Lemma visit_grounded_part (acc : Parsed) (sources : list (value * value)) :
  visit_part acc (grounded_part sources)
  = Some {| toolCalls := toolCalls acc; text := text acc;
            groundingSources := (groundingSources acc ++ map source_value sources)%list |}.
Proof.
  unfold visit_part, grounded_part.
  cbn [get get_opt assoc String.eqb Ascii.eqb Bool.eqb object_prototype truthy attributions].
  rewrite map_attributions_sources. reflexivity.
Qed.

(** The sources of the grounded parts of a message come out in the order
    of the parts and, within a part, of its attributions, each with its
    [uri] and [title]; of a message handed to it whole, [ChatMessage]
    shows the first three at most. *)
Theorem sources_are_read_in_order (groups : list (list (value * value))) (isAgent : bool) :
  parseAgentResponse (message_of (map grounded_part groups))
  = Some {| toolCalls := []; text := "";
            groundingSources := map source_value (concat groups) |}
  /\ ChatMessage (message_of (map grounded_part groups)) isAgent false false
     = Some (TextBubble isAgent "" (firstn 3 (map source_value (concat groups)))).
Proof.
  assert (G : forall groups acc,
             visit_parts acc (map grounded_part groups)
             = Some {| toolCalls := toolCalls acc; text := text acc;
                       groundingSources :=
                         (groundingSources acc ++ map source_value (concat groups))%list |}).
  { induction groups0 as [|g groups0 IH]; intros [tc tx gs]; cbn [map visit_parts concat].
    - cbn. now rewrite app_nil_r.
    - rewrite visit_grounded_part. cbv beta iota. rewrite IH.
      cbn [toolCalls text groundingSources]. now rewrite map_app, <- app_assoc. }
  assert (P : parseAgentResponse (message_of (map grounded_part groups))
              = Some {| toolCalls := []; text := "";
                        groundingSources := map source_value (concat groups) |}).
  { change (parseAgentResponse (message_of (map grounded_part groups)))
      with (visit_parts {| toolCalls := []; text := ""; groundingSources := [] |}
              (map grounded_part groups)).
    now rewrite G. }
  split; [exact P|].
  unfold ChatMessage. rewrite P. reflexivity.
Qed.

End GroundingFacts.

(** ** The tool server on its host *)

Section HostedFacts.

Import Str JS Server Wire Calls.

(** The handlers of [Server] are the hosted ones at the two functions of
    [Str] and [JS]. *)
Lemma server_is_hosted :
  Server.getOffers = Hosted.getOffers Str.toLowerCase
  /\ Server.createPurchaseLink = Hosted.createPurchaseLink Str.toLowerCase
  /\ Server.generateOfferWidget = Hosted.generateOfferWidget JS.toFixed2.
Proof. repeat split. Qed.

Lemma hosted_ids_plain (l : list Offer) :
  forallb plain (map (fun o => VStr (id o)) l) = true.
Proof. induction l as [|o l IH]; [reflexivity | exact IH]. Qed.

Lemma hosted_widget_plain (fixed : number -> string) (l : list Offer) :
  plain (VObj (Hosted.widget_success fixed l)) = true.
Proof.
  unfold Hosted.widget_success.
  cbn [plain distinct_keys existsb forallb fst snd String.eqb Ascii.eqb Bool.eqb negb andb orb].
  now rewrite hosted_ids_plain.
Qed.

Lemma hosted_html_cons (fixed : number -> string) (o : Offer) (os : list Offer) :
  Hosted.widgetHtml fixed (o :: os) = Hosted.card fixed o ++ Hosted.widgetHtml fixed os.
Proof.
  unfold Hosted.widgetHtml. destruct os as [|o' os]; simpl.
  - now rewrite append_nil_r.
  - reflexivity.
Qed.

Lemma hosted_card_includes_id (fixed : number -> string) (o : Offer) :
  includes (Hosted.card fixed o) (id o).
Proof.
  unfold Hosted.card.
  repeat first [ apply includes_here | apply includes_skip ].
Qed.

(** C4. Whatever the host prints a price as, the text
    [generateOfferWidget] returns for an absent or empty [offers] is the
    JSON of an object with status [error], a message and no
    [widget_data]. The text it returns for any other [offers] is the JSON
    of an object with status [success] and a [widget_data] whose
    [metadata.offers] are the ids of the input, in its order and with its
    repetitions, and whose [html] is one card per input offer in that
    order between a fixed head and tail, each card carrying the id; an
    offer given twice is listed twice and rendered twice. *)
Theorem generateOfferWidget_payload (fixed : number -> string) :
  (forall w,
      exists t,
        Hosted.generateOfferWidget fixed {| offers := None |} w
        = ({| content := [ {| type := "text"; text := t |} ] |}, w)
        /\ Hosted.generateOfferWidget fixed {| offers := Some [] |} w
           = ({| content := [ {| type := "text"; text := t |} ] |}, w)
        /\ parse t
           = Some (VObj [ ("status", VStr "error");
                          ("message", VStr "No offers available to generate widget.") ])
        /\ option_map (fun payload => get_opt payload "widget_data") (parse t)
           = Some VUndefined)
  /\ (forall o os w,
         exists t,
           Hosted.generateOfferWidget fixed {| offers := Some (o :: os) |} w
           = ({| content := [ {| type := "text"; text := t |} ] |}, w)
           /\ parse t
              = Some (VObj
                        [ ("status", VStr "success");
                          ("widget_data",
                           VObj [ ("html",
                                   VStr (widget_head
                                         ++ String.concat "" (map (Hosted.card fixed) (o :: os))
                                         ++ widget_tail));
                                  ("metadata",
                                   VObj [ ("offers",
                                           VArr (map (fun x => VStr (id x)) (o :: os))) ]) ]) ]))
  /\ (forall o, includes (Hosted.card fixed o) (id o))
  /\ (forall o os,
         String.concat "" (map (Hosted.card fixed) (o :: os))
         = Hosted.card fixed o ++ String.concat "" (map (Hosted.card fixed) os))
  /\ (forall o w,
         exists t,
           Hosted.generateOfferWidget fixed {| offers := Some [o; o] |} w
           = ({| content := [ {| type := "text"; text := t |} ] |}, w)
           /\ parse t
              = Some (VObj
                        [ ("status", VStr "success");
                          ("widget_data",
                           VObj [ ("html",
                                   VStr (widget_head
                                         ++ (Hosted.card fixed o ++ Hosted.card fixed o)
                                         ++ widget_tail));
                                  ("metadata",
                                   VObj [ ("offers", VArr [ VStr (id o); VStr (id o) ]) ]) ]) ])).
Proof.
  assert (Success : forall l,
             parse (stringify_object (Hosted.widget_success fixed l))
             = Some (VObj (Hosted.widget_success fixed l))).
  { intros l.
    change (stringify_object (Hosted.widget_success fixed l))
      with (text_of (VObj (Hosted.widget_success fixed l))).
    apply parse_stringify, hosted_widget_plain. }
  split; [|split; [|split; [|split]]].
  - intros w. exists (stringify_object widget_error).
    split; [reflexivity|]. split; [reflexivity|]. split; vm_compute; reflexivity.
  - intros o os w. exists (stringify_object (Hosted.widget_success fixed (o :: os))).
    split; [reflexivity | apply Success].
  - apply hosted_card_includes_id.
  - apply hosted_html_cons.
  - intros o w. exists (stringify_object (Hosted.widget_success fixed [o; o])).
    split; [reflexivity | apply Success].
Qed.

(** [createPurchaseLink] with an offer id, as one run on its host. *)
Lemma hosted_link_run (lower : string -> string) (offer : string) (w : World) :
  offer <> "" ->
  Hosted.createPurchaseLink lower {| offer_id := Some offer |} w
  = ({| content :=
          [ {| type := "text";
               text := stringify_object
                         [("purchase_url",
                           VStr (Hosted.checkout_url lower offer (uuids w (drawn w))))] |} ] |},
     {| console :=
          (console w
           ++ [("MCP Tool Call: createPurchaseLink, Offer ID: " ++ offer)%string])%list;
        uuids := uuids w;
        drawn := S (drawn w) |}).
Proof. intros H. destruct offer as [|c r]; [contradiction | reflexivity]. Qed.

Lemma link_text_parses (url : string) :
  parse (stringify_object [("purchase_url", VStr url)])
  = Some (VObj [("purchase_url", VStr url)]).
Proof.
  change (stringify_object [("purchase_url", VStr url)])
    with (text_of (VObj [("purchase_url", VStr url)])).
  now apply parse_stringify.
Qed.

(** C5 (amended). Whatever the host lowers the offer id to, for a
    non-empty [offer_id] [createPurchaseLink] draws one fresh UUID, logs
    the call, and returns one text item whose text is the JSON of an object
    whose [purchase_url] includes the lowered offer id and ends with the
    first eight characters of that UUID. Two URLs for the same offer id are
    equal exactly when the two UUIDs agree on their first eight
    characters. *)
Theorem createPurchaseLink_url (lower : string -> string) (offer : string) (w : World) :
  offer <> "" ->
  let uuid := uuids w (drawn w) in
  let url := Hosted.checkout_url lower offer uuid in
  (exists t,
      Hosted.createPurchaseLink lower {| offer_id := Some offer |} w
      = ({| content := [ {| type := "text"; text := t |} ] |},
         {| console :=
              (console w
               ++ [("MCP Tool Call: createPurchaseLink, Offer ID: " ++ offer)%string])%list;
            uuids := uuids w;
            drawn := S (drawn w) |})
      /\ parse t = Some (VObj [("purchase_url", VStr url)]))
  /\ includes url (lower offer)
  /\ (exists pre, url = pre ++ substring 0 8 uuid)
  /\ (forall uuid',
         Hosted.checkout_url lower offer uuid = Hosted.checkout_url lower offer uuid'
         <-> substring 0 8 uuid = substring 0 8 uuid').
Proof.
  intros Hne uuid url. split; [|split; [|split]].
  - eexists. split; [apply (hosted_link_run lower offer w Hne) | apply link_text_parses].
  - apply includes_middle.
  - exists ("https://your-company.com/checkout/" ++ lower offer ++ "?source=agent-").
    unfold url, Hosted.checkout_url. now rewrite !append_assoc.
  - intros uuid'. unfold Hosted.checkout_url. split; intros H.
    + do 3 apply append_inj_l in H. exact H.
    + now rewrite H.
Qed.

Lemma createPurchaseLink_url_witness :
  "Home_Pro" <> ""
  /\ includes
       (Hosted.checkout_url Str.toLowerCase "Home_Pro"
          (uuids (quiet_world Hosted.numbered_uuids) (drawn (quiet_world Hosted.numbered_uuids))))
       "home_pro"
  /\ Hosted.checkout_url Str.toLowerCase "Home_Pro" (Hosted.numbered_uuids 0)
     = "https://your-company.com/checkout/home_pro?source=agent-00000000".
Proof.
  split; [discriminate|]. split; [|reflexivity].
  apply (createPurchaseLink_url Str.toLowerCase "Home_Pro" (quiet_world Hosted.numbered_uuids)).
  discriminate.
Defined.

(** *** getOffers *)

Lemma hosted_getOffers_run (lower : string -> string) (input : GetOffersInput) (w : World) :
  Hosted.getOffers lower input w
  = ({| content :=
          [ {| type := "text";
               text := stringify_object
                         [("offers",
                           or_else (OFFERS_at (Hosted.selected lower input))
                                   (offers_value (home OFFERS)))] |} ] |},
     {| console :=
          (console w
           ++ [("MCP Tool Call: getOffers, Category: "
                ++ Hosted.selected lower input)%string])%list;
        uuids := uuids w; drawn := drawn w |}).
Proof. reflexivity. Qed.

(** All that [getOffers] can answer, on a host whose lowering leaves no
    letter from A to Z. The key it looks up, the lowered category or
    [home], decides between four texts: the offers of [business], the two
    texts an inherited name leads to, and the offers of [home] for
    everything else. It logs that key and draws nothing. *)
Theorem getOffers_outcomes (lower : string -> string) (input : GetOffersInput) (w : World) :
  (forall s, has_upper (lower s) = false) ->
  Hosted.getOffers lower input w
  = ({| content :=
          [ {| type := "text";
               text :=
                 if Hosted.selected lower input =? "business"
                 then stringify_object [("offers", offers_value (business OFFERS))]
                 else if Hosted.selected lower input =? "constructor" then "{}"
                 else if Hosted.selected lower input =? "__proto__"
                      then "{" ++ dq ++ "offers" ++ dq ++ ":{}}"
                 else stringify_object [("offers", offers_value (home OFFERS))] |} ] |},
     {| console :=
          (console w
           ++ [("MCP Tool Call: getOffers, Category: "
                ++ Hosted.selected lower input)%string])%list;
        uuids := uuids w; drawn := drawn w |}).
Proof.
  intros Hlow. rewrite hosted_getOffers_run. f_equal.
  assert (Hup : has_upper (Hosted.selected lower input) = false).
  { unfold Hosted.selected. destruct (category input) as [c|]; [|reflexivity].
    destruct (c =? ""); [reflexivity | apply Hlow]. }
  destruct (String.eqb_spec (Hosted.selected lower input) "business") as [E|Hb];
    [now rewrite E|].
  destruct (String.eqb_spec (Hosted.selected lower input) "constructor") as [E|Hc];
    [now rewrite E|].
  destruct (String.eqb_spec (Hosted.selected lower input) "__proto__") as [E|Hp];
    [now rewrite E|].
  destruct (String.eqb_spec (Hosted.selected lower input) "home") as [E|Hh];
    [now rewrite E|].
  now rewrite (OFFERS_at_unknown _ Hup Hh Hb Hc Hp).
Qed.

Lemma getOffers_outcomes_witness :
  (forall s, has_upper (Str.toLowerCase s) = false)
  /\ fst (Hosted.getOffers Str.toLowerCase {| category := Some "Constructor" |}
            (quiet_world Hosted.numbered_uuids))
     = {| content := [ {| type := "text"; text := "{}" |} ] |}
  /\ console (snd (Hosted.getOffers Str.toLowerCase {| category := Some "Constructor" |}
                     (quiet_world Hosted.numbered_uuids)))
     = [ "MCP Tool Call: getOffers, Category: constructor" ].
Proof.
  split; [exact toLowerCase_no_upper|].
  rewrite (getOffers_outcomes Str.toLowerCase {| category := Some "Constructor" |}
             (quiet_world Hosted.numbered_uuids) toLowerCase_no_upper).
  split; reflexivity.
Defined.

(** *** Cards *)

Lemma hosted_html_includes_card (fixed : number -> string) (l : list Offer) (o : Offer) :
  In o l -> includes (Hosted.widgetHtml fixed l) (Hosted.card fixed o).
Proof.
  induction l as [|x l IH]; intros Hin; [contradiction|].
  rewrite hosted_html_cons. destruct Hin as [-> | Hin].
  - apply includes_here.
  - apply includes_skip, IH, Hin.
Qed.

(** Every offer handed to [generateOfferWidget] has its card in the html,
    and the card shows its name, its price as the host prints it with two
    decimals, its description, and the call of [createPurchaseLink] for
    its id. The fields are put in as they are. *)
Theorem every_offer_has_its_card (fixed : number -> string) (l : list Offer) (o : Offer) :
  In o l ->
  includes (Hosted.finalWidget fixed l) (Hosted.card fixed o)
  /\ includes (Hosted.card fixed o) (name o)
  /\ includes (Hosted.card fixed o) (fixed (price o))
  /\ includes (Hosted.card fixed o) (description o)
  /\ includes (Hosted.card fixed o)
       ("agentCall('createPurchaseLink', {offer_id: '" ++ id o ++ "'})").
Proof.
  intros Hin. split.
  { unfold Hosted.finalWidget. apply includes_skip.
    destruct (hosted_html_includes_card fixed l o Hin) as (pre & post & E).
    exists pre, (post ++ widget_tail). now rewrite E, !append_assoc. }
  unfold Hosted.card.
  repeat split; repeat first [ apply includes_here3 | apply includes_here | apply includes_skip ].
Qed.

Lemma every_offer_has_its_card_witness :
  In quoted_offer [quoted_offer]
  /\ includes (Hosted.finalWidget JS.toFixed2 [quoted_offer])
       ("agentCall('createPurchaseLink', {offer_id: '" ++ id quoted_offer ++ "'})").
Proof.
  split; [left; reflexivity|].
  destruct (every_offer_has_its_card JS.toFixed2 [quoted_offer] quoted_offer
              (or_introl eq_refl))
    as (Hcard & _ & _ & _ & Hcall).
  exact (includes_trans _ _ _ Hcard Hcall).
Defined.

(** *** Sequences of calls *)

Lemma hosted_handle_effect (lower : string -> string) (fixed : number -> string)
    (c : ToolCall) (w : World) :
  uuids (snd (Hosted.handle lower fixed c w)) = uuids w
  /\ drawn (snd (Hosted.handle lower fixed c w))
     = (drawn w + (if makes_link c then 1 else 0))%nat.
Proof.
  destruct c as [input | [[[|ch s]|]] | [[[|o os]|]]]; cbn; split; (reflexivity || lia).
Qed.

Lemma hosted_handle_all_cons (lower : string -> string) (fixed : number -> string)
    (c : ToolCall) (cs : list ToolCall) (w : World) :
  Hosted.handle_all lower fixed (c :: cs) w
  = (fst (Hosted.handle lower fixed c w)
       :: fst (Hosted.handle_all lower fixed cs (snd (Hosted.handle lower fixed c w))),
     snd (Hosted.handle_all lower fixed cs (snd (Hosted.handle lower fixed c w)))).
Proof.
  cbn [Hosted.handle_all]. unfold bind, ret.
  destruct (Hosted.handle lower fixed c w) as [e w1]. cbn [fst snd].
  now destruct (Hosted.handle_all lower fixed cs w1) as [es w2].
Qed.

Lemma hosted_handle_all_effect (lower : string -> string) (fixed : number -> string)
    (cs : list ToolCall) (w : World) :
  List.length (fst (Hosted.handle_all lower fixed cs w)) = List.length cs
  /\ uuids (snd (Hosted.handle_all lower fixed cs w)) = uuids w
  /\ drawn (snd (Hosted.handle_all lower fixed cs w)) = (drawn w + count makes_link cs)%nat.
Proof.
  revert w. induction cs as [|c cs IH]; intros w.
  - cbn. repeat split; lia.
  - rewrite hosted_handle_all_cons. cbn [fst snd List.length].
    destruct (IH (snd (Hosted.handle lower fixed c w))) as (Hl & Hu & Hd).
    destruct (hosted_handle_effect lower fixed c w) as (Hu1 & Hd1).
    unfold count in *. cbn [filter].
    rewrite Hl, Hu, Hd, Hu1, Hd1.
    destruct (makes_link c); cbn [List.length]; repeat split; lia.
Qed.

Lemma hosted_handle_all_app (lower : string -> string) (fixed : number -> string)
    (a b : list ToolCall) (w : World) :
  Hosted.handle_all lower fixed (a ++ b) w
  = ((fst (Hosted.handle_all lower fixed a w)
      ++ fst (Hosted.handle_all lower fixed b (snd (Hosted.handle_all lower fixed a w))))%list,
     snd (Hosted.handle_all lower fixed b (snd (Hosted.handle_all lower fixed a w)))).
Proof.
  revert w. induction a as [|c a IH]; intros w.
  - cbn [app]. change (Hosted.handle_all lower fixed [] w) with (@nil Envelope, w).
    cbn [fst snd app]. now destruct (Hosted.handle_all lower fixed b w).
  - cbn [app]. rewrite !hosted_handle_all_cons, IH. reflexivity.
Qed.

(** Each link is made from a UUID of its own: the call that comes after
    the calls [before] takes the UUID numbered by the links made in
    [before], whatever the other calls are. *)
Theorem link_takes_next_uuid (lower : string -> string) (fixed : number -> string)
    (before after : list ToolCall) (offer : string) (w : World) :
  offer <> "" ->
  nth_error
    (fst (Hosted.handle_all lower fixed
            (before ++ CreatePurchaseLink {| offer_id := Some offer |} :: after) w))
    (List.length before)
  = Some {| content :=
              [ {| type := "text";
                   text := stringify_object
                             [("purchase_url",
                               VStr (Hosted.checkout_url lower offer
                                       (uuids w (drawn w + count makes_link before))))] |} ] |}.
Proof.
  intros Hne. rewrite hosted_handle_all_app. cbn [fst].
  destruct (hosted_handle_all_effect lower fixed before w) as (Hl & Hu & Hd).
  rewrite nth_error_app2 by lia. rewrite Hl, Nat.sub_diag.
  rewrite hosted_handle_all_cons. cbn [fst nth_error Hosted.handle].
  rewrite (hosted_link_run lower offer _ Hne).
  cbn [fst]. now rewrite Hu, Hd.
Qed.

Lemma link_takes_next_uuid_witness :
  "home_pro" <> ""
  /\ nth_error
       (fst (Hosted.handle_all Str.toLowerCase JS.toFixed2
               [ CreatePurchaseLink {| offer_id := Some "home_basic" |};
                 GetOffers {| category := None |};
                 CreatePurchaseLink {| offer_id := Some "home_pro" |} ]
               (quiet_world Hosted.numbered_uuids)))
       2
     = Some {| content :=
                 [ {| type := "text";
                      text := stringify_object
                                [("purchase_url",
                                  VStr "https://your-company.com/checkout/home_pro?source=agent-11111111")] |} ] |}.
Proof.
  split; [discriminate|].
  apply (link_takes_next_uuid Str.toLowerCase JS.toFixed2
           [ CreatePurchaseLink {| offer_id := Some "home_basic" |};
             GetOffers {| category := None |} ]
           [] "home_pro" (quiet_world Hosted.numbered_uuids)).
  discriminate.
Defined.

(** The text [createPurchaseLink] returns parses back to the payload: an
    object whose [purchase_url] is the checkout URL, whatever characters
    the offer id holds and whatever the host lowers them to. *)
Theorem purchase_link_text_parses (lower : string -> string) (offer : string) (w : World) :
  offer <> "" ->
  exists t,
    content (fst (Hosted.createPurchaseLink lower {| offer_id := Some offer |} w))
    = [ {| type := "text"; text := t |} ]
    /\ parse t
       = Some (VObj [("purchase_url",
                      VStr ("https://your-company.com/checkout/" ++ lower offer
                            ++ "?source=agent-" ++ substring 0 8 (uuids w (drawn w))))]).
Proof.
  intros Hne. rewrite (hosted_link_run lower offer w Hne).
  eexists. split; [reflexivity | apply link_text_parses].
Qed.

Lemma purchase_link_text_parses_witness :
  "Home_Pro" <> ""
  /\ exists t,
       content (fst (Hosted.createPurchaseLink Str.toLowerCase {| offer_id := Some "Home_Pro" |}
                       (quiet_world Hosted.numbered_uuids)))
       = [ {| type := "text"; text := t |} ]
       /\ parse t
          = Some (VObj [("purchase_url",
                         VStr "https://your-company.com/checkout/home_pro?source=agent-00000000")]).
Proof.
  split; [discriminate|].
  apply (purchase_link_text_parses Str.toLowerCase "Home_Pro" (quiet_world Hosted.numbered_uuids)).
  discriminate.
Defined.

End HostedFacts.

(** ** The page with its closures *)

Section ClosureFacts.

Import Str JS Client Closure.

(** Run in the render of the state it writes to, the handler is
    [handleSendMessage_send]. *)
Lemma call_in_its_render (st : AppState) (userText toolName : option string)
    (toolArgs : value) :
  handleSendMessage_send st userText toolName toolArgs
  = match handleSendMessage_call st userText toolName toolArgs with
    | None => (st, None)
    | Some (write, body) => (write st, Some body)
    end.
Proof.
  unfold handleSendMessage_send, handleSendMessage_call.
  destruct (isThinking st); reflexivity.
Qed.

(** A handler made in a render that saw [isThinking] set does nothing. *)
Lemma closed_gate_rejects (p : Page) (userText toolName : option string)
    (toolArgs : value) :
  isThinking (seen p) = true ->
  happen p (Call userText toolName toolArgs) = p.
Proof.
  intros H. cbn [happen]. unfold handleSendMessage_call. now rewrite H.
Qed.

(** A handler made in a render that saw [isThinking] clear posts,
    whatever the cells hold by now. *)
Lemma open_gate_posts (p : Page) (userText toolName : option string)
    (toolArgs : value) :
  isThinking (seen p) = false ->
  exists body,
    out (happen p (Call userText toolName toolArgs)) = (out p ++ [body])%list
    /\ snd (handleSendMessage_send (seen p) userText toolName toolArgs) = Some body
    /\ history (store (happen p (Call userText toolName toolArgs))) = history (store p)
    /\ seen (happen p (Call userText toolName toolArgs)) = seen p.
Proof.
  intros H. cbn [happen]. rewrite call_in_its_render.
  unfold handleSendMessage_call. rewrite H.
  eexists. cbn [out store seen snd]. split; [reflexivity|]. split; [reflexivity|].
  split; [|reflexivity].
  destruct userText as [t|]; [|reflexivity].
  destruct (negb (t =? "") && negb (is_blank t)); reflexivity.
Qed.

Lemma without_length (k : nat) (l : list AgentPayload) (body : AgentPayload) :
  nth_error l k = Some body ->
  List.length (without k l) = Nat.pred (List.length l).
Proof.
  revert k. induction l as [|x l IH]; intros [|k] H; try discriminate H.
  - reflexivity.
  - change (without (S k) (x :: l)) with (x :: without k l).
    cbn [List.length Nat.pred]. rewrite (IH k H).
    destruct l as [|y l]; [destruct k; discriminate H | reflexivity].
Qed.

Lemma without_In (k : nat) (l : list AgentPayload) (body : AgentPayload) :
  In body (without k l) -> In body l.
Proof.
  unfold without. revert k. induction l as [|x l IH]; intros k H.
  - now destruct k.
  - destruct k as [|k]; cbn [firstn skipn List.app] in H.
    + now right.
    + destruct H as [<- | H]; [now left | right; exact (IH k H)].
Qed.

(** C6 (amended). When the agent call fails, one error turn is appended
    and [isThinking] is cleared. The turn carries the fixed message
    [connect_failure] when the transport failed, and the [error] value of
    the response when the response has one that is set. The answer takes
    its call out of those in flight and posts nothing. *)
Theorem failed_call_appends_error_turn (st : AppState) (r : Reply) :
  agent_call_failed r ->
  (exists e,
      handleSendMessage_settle st r
      = {| history := (history st ++ [error_turn e])%list;
           input := input st; isThinking := false |}
      /\ (r = Rejected -> e = VStr connect_failure)
      /\ (forall data, r = Fulfilled data -> get data "error" = Some e))
  /\ (forall p k body,
         store p = st ->
         nth_error (out p) k = Some body ->
         store (happen p (Answer k r)) = handleSendMessage_settle st r
         /\ out (happen p (Answer k r)) = without k (out p)
         /\ List.length (out (happen p (Answer k r))) = Nat.pred (List.length (out p))).
Proof.
  intros Hfail. split.
  - destruct Hfail as [-> | (data & e & -> & Hget & Htruthy)].
    + exists (VStr connect_failure). split; [reflexivity|]. split; [reflexivity|].
      intros data H. discriminate H.
    + exists e. split; [|split].
      * unfold handleSendMessage_settle, response_turn. cbn [callAgent_result].
        rewrite Hget, Htruthy. reflexivity.
      * intros H. discriminate H.
      * intros data' H. injection H as <-. exact Hget.
  - intros p k body <- Hk. cbn [happen]. rewrite Hk. cbn [store out].
    split; [reflexivity|]. split; [reflexivity|]. exact (without_length k (out p) body Hk).
Qed.

Lemma failed_call_appends_error_turn_witness :
  agent_call_failed Rejected
  /\ handleSendMessage_settle (awaiting initial_state) Rejected
     = {| history := [greeting; error_turn (VStr connect_failure)];
          input := ""; isThinking := false |}.
Proof.
  assert (H : agent_call_failed Rejected) by (left; reflexivity).
  split; [exact H|].
  destruct (proj1 (failed_call_appends_error_turn (awaiting initial_state) Rejected H))
    as (e & E & Hrej & _).
  rewrite E, (Hrej eq_refl). reflexivity.
Defined.

(** C7 (code defect). [handleSendMessage] tests the [isThinking] of the
    render it was made in. After a first call of [window.agentCall] the
    cell holds [true] and the handler still sees [false]: a second call
    with no render between them passes the test too, and two bodies are in
    flight. With a render between them the second call changes nothing. *)
Theorem two_calls_before_render :
  let once := play [first_click] initial_page in
  let twice := play [first_click; second_click] initial_page in
  isThinking (store once) = true
  /\ isThinking (seen once) = false
  /\ out twice
     = [ callAgent_payload
           [ greeting;
             user_turn ("User clicked widget button: createPurchaseLink("
                        ++ stringify_in_template (VObj [ ("offer_id", VStr "home_basic") ])
                        ++ ")") ];
         callAgent_payload
           [ greeting;
             user_turn ("User clicked widget button: createPurchaseLink("
                        ++ stringify_in_template (VObj [ ("offer_id", VStr "home_pro") ])
                        ++ ")") ] ]
  /\ List.length (out twice) = 2%nat
  /\ play [first_click; Render; second_click] initial_page
     = play [first_click; Render] initial_page
  /\ List.length (out (play [first_click; Render; second_click] initial_page)) = 1%nat.
Proof. cbv zeta. repeat split. Qed.

(** *** The stored conversation over time *)

Lemma happen_consistent (p : Page) (h : Happening) :
  consistent p -> consistent (happen p h).
Proof.
  intros (rest & Hstore & Hroles & (earlier & later & Hrest & Hseen) & Hout).
  destruct h as [u n a | | k r | s].
  - destruct (isThinking (seen p)) eqn:G.
    + rewrite (closed_gate_rejects p u n a G).
      exists rest. split; [exact Hstore|]. split; [exact Hroles|].
      split; [now exists earlier, later | exact Hout].
    + destruct (open_gate_posts p u n a G) as (body & Eout & Esent & Ehist & Eseen).
      exists rest. rewrite Ehist, Eseen, Eout.
      split; [exact Hstore|]. split; [exact Hroles|].
      split; [now exists earlier, later|].
      intros b Hin. apply in_app_or in Hin. destruct Hin as [Hin | [<- | []]].
      * exact (Hout b Hin).
      * destruct (send_posts (seen p) u n a body Esent)
          as (_ & _ & _ & added & E & L & R).
        exists earlier, later, added. rewrite E, Hseen. now repeat split.
  - exists rest. cbn [happen store seen out].
    split; [exact Hstore|]. split; [exact Hroles|].
    split; [|exact Hout].
    exists rest, []. now rewrite app_nil_r.
  - cbn [happen]. destruct (nth_error (out p) k) as [body|] eqn:Hk.
    + destruct (settle_appends_one (store p) r) as (t & E & Hrole).
      exists (rest ++ [t])%list. cbn [store seen out]. rewrite E. cbn [history].
      split; [now rewrite Hstore|].
      split; [apply Forall_app; split; [exact Hroles | now constructor]|].
      split.
      * exists earlier, (later ++ [t])%list. split; [|exact Hseen].
        now rewrite Hrest, <- app_assoc.
      * intros b Hin. apply without_In in Hin.
        destruct (Hout b Hin) as (e' & l' & added & E1 & E2 & L & R).
        exists e', (l' ++ [t])%list, added.
        split; [now rewrite E1, <- app_assoc | now repeat split].
    + exists rest. split; [exact Hstore|]. split; [exact Hroles|].
      split; [now exists earlier, later | exact Hout].
  - exists rest. cbn [happen store seen out].
    split; [exact Hstore|]. split; [exact Hroles|].
    split; [now exists earlier, later | exact Hout].
Qed.

Lemma play_consistent (hs : list Happening) (p : Page) :
  consistent p -> consistent (play hs p).
Proof.
  revert p. induction hs as [|h hs IH]; intros p H; [exact H|].
  apply IH, happen_consistent, H.
Qed.

(** Whatever happens on the page, and in whatever order calls, renders
    and answers come, the stored conversation is the greeting followed by
    turns of role [agent] or [error]: no turn of the user is ever in it.
    Every body in flight carries the greeting, then the stored turns its
    render had seen, then at most two turns of role [user]: the agent
    never receives what the user said in an earlier submission. *)
Theorem stored_conversation_has_no_user_turn (hs : list Happening) :
  exists rest,
    history (store (play hs initial_page)) = greeting :: rest
    /\ Forall (fun t => role t = "agent" \/ role t = "error") rest
    /\ forall body,
         In body (out (play hs initial_page)) ->
         exists earlier later added,
           rest = (earlier ++ later)%list
           /\ sent_history body = (greeting :: earlier ++ added)%list
           /\ (List.length added <= 2)%nat
           /\ Forall (fun t => role t = "user") added.
Proof.
  destruct (play_consistent hs initial_page) as (rest & Hstore & Hroles & _ & Hout).
  { exists []. split; [reflexivity|]. split; [constructor|].
    split; [now exists [], [] | intros b []]. }
  exists rest. split; [exact Hstore|]. split; [exact Hroles | exact Hout].
Qed.

End ClosureFacts.
